(** * viewer-larivot: the glue of [src/main.ts] and [src/MeasurementsUI.ts]

    The program wires a third-party 3D viewer, its extensions and two
    Tweakpane panels together.  This development embeds

    - the JavaScript values the handlers inspect (the [any]-typed
      [raw.properties] of the scene-graph nodes), with truthiness,
      property access, [||], [&&] and [String.prototype.trim];
    - the [Map] from model ids to tree nodes and the scan that fills it;
    - the measurement panel of [MeasurementsUI.ts];
    - the control panel, [createOrUpdateButton], [ZoomOnTreeNode], the
      dropdown handler and the [ObjectClicked] handler of [main.ts];
    - the start-up sequence of [main] with its three awaited steps.

    State is passed explicitly; a handler that raises keeps the mutations
    it made before raising, as a JavaScript handler does. *)

From Stdlib Require Import List Bool ZArith NArith Lia String Ascii DecimalString.
From Stdlib Require Import SpecFloat.
Import ListNotations.

Set Implicit Arguments.
Set Warnings "-register-all".

(* ================================================================== *)
(** ** JavaScript strings *)

(** A JavaScript string is a sequence of UTF-16 code units. *)
Definition jsstring := list N.

Fixpoint jsstring_eqb (a b : jsstring) : bool :=
  match a, b with
  | [], [] => true
  | x :: a', y :: b' => N.eqb x y && jsstring_eqb a' b'
  | _, _ => false
  end.

(** The literals of the source files are UTF-8 text; [utf16] gives the
    code units of the string such a literal denotes. *)
Definition continuation (b : N) : bool := (128 <=? b)%N && (b <? 192)%N.

Definition code_units (cp : N) : jsstring :=
  if (cp <? 65536)%N then [cp]
  else [(55296 + (cp - 65536) / 1024)%N; (56320 + (cp - 65536) mod 1024)%N].

Fixpoint utf16_bytes (bs : list N) : jsstring :=
  match bs with
  | [] => []
  | b1 :: r1 =>
      if (b1 <? 128)%N then b1 :: utf16_bytes r1
      else
        match r1 with
        | [] => [b1]
        | b2 :: r2 =>
            if (192 <=? b1)%N && (b1 <? 224)%N && continuation b2
            then ((b1 - 192) * 64 + (b2 - 128))%N :: utf16_bytes r2
            else
              match r2 with
              | [] => b1 :: utf16_bytes r1
              | b3 :: r3 =>
                  if (224 <=? b1)%N && (b1 <? 240)%N
                     && continuation b2 && continuation b3
                  then ((b1 - 224) * 4096 + (b2 - 128) * 64 + (b3 - 128))%N
                         :: utf16_bytes r3
                  else
                    match r3 with
                    | [] => b1 :: utf16_bytes r1
                    | b4 :: r4 =>
                        if (240 <=? b1)%N && (b1 <? 248)%N && continuation b2
                           && continuation b3 && continuation b4
                        then code_units ((b1 - 240) * 262144 + (b2 - 128) * 4096
                                         + (b3 - 128) * 64 + (b4 - 128))%N
                               ++ utf16_bytes r4
                        else b1 :: utf16_bytes r1
                    end
              end
        end
  end.

Definition utf16 (s : string) : jsstring :=
  utf16_bytes (map N_of_ascii (list_ascii_of_string s)).

(** WhiteSpace and LineTerminator code points, the ones [trim] strips. *)
Definition is_white_space (c : N) : bool :=
  ((9 <=? c) && (c <=? 13) || (c =? 32) || (c =? 160) || (c =? 5760)
   || (8192 <=? c) && (c <=? 8202) || (c =? 8232) || (c =? 8233)
   || (c =? 8239) || (c =? 8287) || (c =? 12288) || (c =? 65279))%N.

Fixpoint trimStart (s : jsstring) : jsstring :=
  match s with
  | [] => []
  | c :: r => if is_white_space c then trimStart r else s
  end.

Definition trimEnd (s : jsstring) : jsstring := rev (trimStart (rev s)).

(** [s.trim()] *)
Definition trim (s : jsstring) : jsstring := trimEnd (trimStart s).

(* ================================================================== *)
(** ** JavaScript values *)

(** The values a parsed model can hold.  Objects and arrays carry the
    reference that identifies them: two objects with the same fields are
    still two objects. *)
Inductive JSValue : Type :=
| JUndefined
| JNull
| JBool (b : bool)
| JNum (x : spec_float)
| JStr (s : jsstring)
| JObj (ref : N) (fields : list (jsstring * JSValue))
| JArr (ref : N) (items : list JSValue).

(** A dictionary: the own properties of an object. *)
Definition Dict := list (jsstring * JSValue).

(** ToBoolean *)
Definition truthy (v : JSValue) : bool :=
  match v with
  | JUndefined | JNull => false
  | JBool b => b
  | JNum (S754_zero _) | JNum S754_nan => false
  | JNum _ => true
  | JStr [] => false
  | JStr _ => true
  | JObj _ _ | JArr _ _ => true
  end.

Definition number_same_value_zero (x y : spec_float) : bool :=
  match x, y with
  | S754_zero _, S754_zero _ => true
  | S754_nan, S754_nan => true
  | S754_infinity a, S754_infinity b => Bool.eqb a b
  | S754_finite s m e, S754_finite s' m' e' =>
      Bool.eqb s s' && Pos.eqb m m' && Z.eqb e e'
  | _, _ => false
  end.

(** SameValueZero, the key comparison of [Map]. *)
Definition same_value_zero (a b : JSValue) : bool :=
  match a, b with
  | JUndefined, JUndefined => true
  | JNull, JNull => true
  | JBool x, JBool y => Bool.eqb x y
  | JNum x, JNum y => number_same_value_zero x y
  | JStr s, JStr t => jsstring_eqb s t
  | JObj r _, JObj r' _ => N.eqb r r'
  | JArr r _, JArr r' _ => N.eqb r r'
  | _, _ => false
  end.

Fixpoint dict_get (d : Dict) (k : jsstring) : JSValue :=
  match d with
  | [] => JUndefined
  | (k', v) :: r => if jsstring_eqb k' k then v else dict_get r k
  end.

(** [a || b] and [a && b] *)
Definition js_or (a b : JSValue) : JSValue := if truthy a then a else b.
Definition js_and (a b : JSValue) : JSValue := if truthy a then b else a.

(* ================================================================== *)
(** ** Completions *)

Inductive JSError : Type :=
| TypeError (msg : string)
| LibraryError (msg : string).

Inductive Completion (A : Type) : Type :=
| Normal (a : A)
| Throw (e : JSError).
Arguments Normal {A} a.
Arguments Throw {A} e.

(** [v[k]] for a property name [k] that no prototype defines, which is
    the case of every name the program reads: own property of an object,
    [undefined] on a primitive or an array, a TypeError on [null] and
    [undefined]. *)
Definition member (v : JSValue) (k : jsstring) : Completion JSValue :=
  match v with
  | JUndefined | JNull => Throw (TypeError "Cannot read properties of null or undefined")
  | JObj _ fs => Normal (dict_get fs k)
  | _ => Normal JUndefined
  end.

(** [v?.[k]] *)
Definition optional_member (v : JSValue) (k : jsstring) : JSValue :=
  match v with
  | JObj _ fs => dict_get fs k
  | _ => JUndefined
  end.

(** [v.trim()]: only strings have the method. *)
Definition call_trim (v : JSValue) : Completion jsstring :=
  match v with
  | JStr s => Normal (trim s)
  | JUndefined | JNull => Throw (TypeError "Cannot read properties of null or undefined")
  | _ => Throw (TypeError "trim is not a function")
  end.

(** Sequencing of fallible steps. *)
Definition bindC {A B} (c : Completion A) (k : A -> Completion B) : Completion B :=
  match c with
  | Normal a => k a
  | Throw e => Throw e
  end.

Declare Scope completion_scope.
Delimit Scope completion_scope with completion.
Notation "x <- c ;; k" := (bindC c (fun x => k))
  (at level 61, c at next level, right associativity) : completion_scope.

(* ================================================================== *)
(** ** The world tree and the id-to-node map (main.ts, lines 92-105) *)

(** [NodeData]: the viewer declares [id: string] and
    [raw: { [prop: string]: any }]. *)
Record NodeData : Type := { id : jsstring; raw : Dict }.

Inductive TreeNode : Type :=
  mkTreeNode { model : NodeData; children : list TreeNode }.

(** The tree is walked depth first, a node before its children. *)
Fixpoint walk (t : TreeNode) : list TreeNode :=
  match t with
  | mkTreeNode _ cs => t :: flat_map walk cs
  end.

(** [node.model.raw.properties] *)
Definition properties (node : TreeNode) : JSValue :=
  dict_get (raw (model node)) (utf16 "properties").

(** [node.model.raw.properties.id] *)
Definition properties_id (node : TreeNode) : Completion JSValue :=
  member (properties node) (utf16 "id").

(** The search predicate:
    [node.model.raw.properties && node.model.raw.properties.id] *)
Definition has_model_id (node : TreeNode) : Completion JSValue :=
  if truthy (properties node) then properties_id node
  else Normal (properties node).

(** [all(predicate)] over the visited nodes: the nodes on which the
    predicate returns a truthy value, in visit order. *)
Fixpoint all (predicate : TreeNode -> Completion JSValue)
    (visited : list TreeNode) : Completion (list TreeNode) :=
  match visited with
  | [] => Normal []
  | n :: r =>
      (v <- predicate n ;;
       found <- all predicate r ;;
       Normal (if truthy v then n :: found else found))%completion
  end.

(** [getWorldTree().findAll(predicate)] *)
Definition findAll (predicate : TreeNode -> Completion JSValue)
    (root : TreeNode) : Completion (list TreeNode) :=
  all predicate (walk root).

(** A [Map]: its entries in insertion order, keys compared with
    SameValueZero. *)
Definition JSMap (V : Type) := list (JSValue * V).

Fixpoint map_get {V} (m : JSMap V) (k : JSValue) : option V :=
  match m with
  | [] => None
  | (k', v) :: r => if same_value_zero k' k then Some v else map_get r k
  end.

Fixpoint map_set {V} (m : JSMap V) (k : JSValue) (v : V) : JSMap V :=
  match m with
  | [] => [(k, v)]
  | (k', v') :: r =>
      if same_value_zero k' k then (k', v) :: r
      else (k', v') :: map_set r k v
  end.

Definition map_has {V} (m : JSMap V) (k : JSValue) : bool :=
  match map_get m k with Some _ => true | None => false end.

(** [tn_GenericModels.forEach(node => treeNodeMap.set(..id, node))] *)
Fixpoint fill_map (nodes : list TreeNode) (m : JSMap TreeNode)
    : Completion (JSMap TreeNode) :=
  match nodes with
  | [] => Normal m
  | node :: r =>
      (key <- properties_id node ;;
       fill_map r (map_set m key node))%completion
  end.

Definition build_treeNodeMap (root : TreeNode) : Completion (JSMap TreeNode) :=
  (tn_GenericModels <- findAll has_model_id root ;;
   fill_map tn_GenericModels [])%completion.

(* ================================================================== *)
(** ** MeasurementsUI.ts *)

Module MeasurementsUI.

Inductive MeasurementType : Type := PERPENDICULAR | POINTTOPOINT.

(** The exported object [measurementsParams]. *)
Record Params : Type := {
  type : MeasurementType;
  vertexSnap : bool;
  units : jsstring;
  precision : Z;
  visible : bool;
  enabled : bool
}.

Definition measurementsParams : Params :=
  {| type := POINTTOPOINT; vertexSnap := true; units := utf16 "m";
     precision := 2; visible := true; enabled := false |}.

Inductive ExtensionCall : Type := removeMeasurement | clearMeasurements.

Record Extension : Type := {
  ext_enabled : bool;
  ext_options : Params;            (* the extension's own options object *)
  ext_calls : list ExtensionCall
}.

Record State : Type := {
  params : Params;                 (* the measurementsParams object *)
  measurementsExtension : Extension
}.

(** [measurementsExtension.options], read *)
Definition options (st : State) : Params :=
  ext_options (measurementsExtension st).

Inductive Key : Type :=
  Kenabled | Kvisible | Ktype | KvertexSnap | Kunits | Kprecision.

Definition key_eqb (a b : Key) : bool :=
  match a, b with
  | Kenabled, Kenabled | Kvisible, Kvisible | Ktype, Ktype
  | KvertexSnap, KvertexSnap | Kunits, Kunits | Kprecision, Kprecision => true
  | _, _ => false
  end.

(** The bodies of the callbacks registered with [.on]. *)
Inductive Callback : Type :=
| AssignEnabled      (* measurementsExtension.enabled = measurementsParams.enabled *)
| AssignOptions      (* measurementsExtension.options = measurementsParams:
                        the setter copies the fields of the object it is
                        given into the extension's own options; it keeps
                        no reference to [measurementsParams] *)
| CallRemove         (* measurementsExtension.removeMeasurement() *)
| CallClear.         (* measurementsExtension.clearMeasurements() *)

Inductive Blade : Type :=
| Input (key : Key) (label : jsstring) (on_change : Callback)
| Button (title : jsstring) (on_click : Callback).

(** The blades [makeMeasurementsUI] adds to its pane, in order. *)
Definition makeMeasurementsUI : list Blade :=
  [ Input Kenabled (utf16 "Enabled") AssignEnabled;
    Input Kvisible (utf16 "Visible") AssignOptions;
    Input Ktype (utf16 "Type") AssignOptions;
    Input KvertexSnap (utf16 "Snap") AssignOptions;
    Input Kunits (utf16 "Units") AssignOptions;
    Input Kprecision (utf16 "Precision") AssignOptions;
    Button (utf16 "Delete") CallRemove;
    Button (utf16 "Delete All") CallClear ].

Definition run (cb : Callback) (st : State) : State :=
  let ext := measurementsExtension st in
  match cb with
  | AssignEnabled =>
      {| params := params st;
         measurementsExtension :=
           {| ext_enabled := enabled (params st);
              ext_options := ext_options ext; ext_calls := ext_calls ext |} |}
  | AssignOptions =>
      {| params := params st;
         measurementsExtension :=
           {| ext_enabled := ext_enabled ext;
              ext_options := params st; ext_calls := ext_calls ext |} |}
  | CallRemove =>
      {| params := params st;
         measurementsExtension :=
           {| ext_enabled := ext_enabled ext; ext_options := ext_options ext;
              ext_calls := ext_calls ext ++ [removeMeasurement] |} |}
  | CallClear =>
      {| params := params st;
         measurementsExtension :=
           {| ext_enabled := ext_enabled ext; ext_options := ext_options ext;
              ext_calls := ext_calls ext ++ [clearMeasurements] |} |}
  end.

(** A value committed by a widget, with the field it is bound to.  The
    options of a widget (the choices of Type and Units, the range 1 to 5
    in steps of 1 of Precision) bound what it commits; the callbacks do
    not look at them. *)
Inductive Change : Type :=
| SetEnabled (v : bool)
| SetVisible (v : bool)
| SetType (v : MeasurementType)
| SetVertexSnap (v : bool)
| SetUnits (v : jsstring)
| SetPrecision (v : Z).

Definition key_of (c : Change) : Key :=
  match c with
  | SetEnabled _ => Kenabled | SetVisible _ => Kvisible | SetType _ => Ktype
  | SetVertexSnap _ => KvertexSnap | SetUnits _ => Kunits
  | SetPrecision _ => Kprecision
  end.

(** The binding made by [addInput(measurementsParams, key, ...)] writes
    the committed value into the bound field. *)
Definition write (c : Change) (p : Params) : Params :=
  match c with
  | SetEnabled v =>
      {| type := type p; vertexSnap := vertexSnap p; units := units p;
         precision := precision p; visible := visible p; enabled := v |}
  | SetVisible v =>
      {| type := type p; vertexSnap := vertexSnap p; units := units p;
         precision := precision p; visible := v; enabled := enabled p |}
  | SetType v =>
      {| type := v; vertexSnap := vertexSnap p; units := units p;
         precision := precision p; visible := visible p; enabled := enabled p |}
  | SetVertexSnap v =>
      {| type := type p; vertexSnap := v; units := units p;
         precision := precision p; visible := visible p; enabled := enabled p |}
  | SetUnits v =>
      {| type := type p; vertexSnap := vertexSnap p; units := v;
         precision := precision p; visible := visible p; enabled := enabled p |}
  | SetPrecision v =>
      {| type := type p; vertexSnap := vertexSnap p; units := units p;
         precision := v; visible := visible p; enabled := enabled p |}
  end.

(** The callbacks the pane holds for the input bound to [k]. *)
Fixpoint change_callbacks (pane : list Blade) (k : Key) : list Callback :=
  match pane with
  | [] => []
  | Input k' _ cb :: r =>
      if key_eqb k' k then cb :: change_callbacks r k else change_callbacks r k
  | Button _ _ :: r => change_callbacks r k
  end.

(** The user changes a field: the binding writes the value, then the
    'change' callbacks of that input run. *)
Definition input_change (pane : list Blade) (c : Change) (st : State) : State :=
  fold_left (fun s cb => run cb s) (change_callbacks pane (key_of c))
    {| params := write c (params st);
       measurementsExtension := measurementsExtension st |}.

(** The value the extension exposes for the field a change is about:
    its [enabled] property, or the field of its [options]. *)
Definition extension_shows (c : Change) (st : State) : Prop :=
  match c with
  | SetEnabled v => ext_enabled (measurementsExtension st) = v
  | SetVisible v => visible (options st) = v
  | SetType v => type (options st) = v
  | SetVertexSnap v => vertexSnap (options st) = v
  | SetUnits v => units (options st) = v
  | SetPrecision v => precision (options st) = v
  end.

End MeasurementsUI.

(* ================================================================== *)
(** ** main.ts: the objects the handlers act on *)

Record Vector3 : Type := { vec_x : spec_float; vec_y : spec_float; vec_z : spec_float }.
Record Box3 : Type := { box_min : Vector3; box_max : Vector3 }.

Definition number_1 : spec_float := S754_finite false 4503599627370496 (-52).
Definition number_minus_1 : spec_float := S754_finite true 4503599627370496 (-52).

(** [new Box3().copy(sceneBox)], then [max.z *= 1] and [min.z = -1]. *)
Definition section_box (sceneBox : Box3) : Box3 :=
  {| box_min := {| vec_x := vec_x (box_min sceneBox);
                   vec_y := vec_y (box_min sceneBox);
                   vec_z := number_minus_1 |};
     box_max := {| vec_x := vec_x (box_max sceneBox);
                   vec_y := vec_y (box_max sceneBox);
                   vec_z := SFmul 53 1024 (vec_z (box_max sceneBox)) number_1 |} |}.

(** The [SectionTool] extension: its [enabled] flag and its box. *)
Record SectionTool : Type := {
  sections_enabled : bool;
  sections_box : option Box3
}.

(** A [setCameraView(ids, transition)] request. *)
Record CameraView : Type := { view_ids : list jsstring; view_transition : bool }.

(** The callbacks [main] registers on buttons. *)
Inductive ClickCallback : Type :=
| ToggleSectionBoxes                 (* lines 150-153 *)
| ResetSectionBoxes                  (* lines 156-161 *)
| OpenWindow (parameterUrl : JSValue). (* window.open(parameterUrl, '_blank') *)

Record ButtonParams : Type := {
  title : jsstring;
  disabled : bool;                   (* absent means false *)
  label : option jsstring
}.

Inductive Blade : Type :=
| Button (params : ButtonParams) (on_click : option ClickCallback)
| ListBlade (list_label : jsstring) (list_options : list (jsstring * jsstring))
            (list_value : jsstring).

(** The control panel: its blades in order, each under the reference of
    the API object [addButton] or [addBlade] returned for it. *)
Record Pane : Type := {
  next_ref : N;
  blades : list (N * Blade)
}.

Definition pane_add (p : Pane) (b : Blade) : N * Pane :=
  (next_ref p,
   {| next_ref := next_ref p + 1; blades := blades p ++ [(next_ref p, b)] |}).

(** [pane.remove(api)]: the blade leaves the panel; removing a blade the
    panel does not hold changes nothing. *)
Definition pane_remove (p : Pane) (r : N) : Pane :=
  {| next_ref := next_ref p;
     blades := filter (fun rb => negb (N.eqb (fst rb) r)) (blades p) |}.

Fixpoint blades_lookup (bs : list (N * Blade)) (r : N) : option Blade :=
  match bs with
  | [] => None
  | (r', b) :: rest => if N.eqb r' r then Some b else blades_lookup rest r
  end.

Definition pane_lookup (p : Pane) (r : N) : option Blade := blades_lookup (blades p) r.

(** [api.on('click', callback)] *)
Definition pane_on_click (p : Pane) (r : N) (cb : ClickCallback) : Pane :=
  {| next_ref := next_ref p;
     blades := map (fun rb =>
                      match rb with
                      | (r', Button bp _) =>
                          if N.eqb r' r then (r', Button bp (Some cb)) else rb
                      | _ => rb
                      end) (blades p) |}.

(** [SelectionEvent]: only [hits] is read; [null] and [undefined] are
    [None]. *)
Record Hit : Type := { node : TreeNode }.
Record SelectionEvent : Type := { hits : option (list Hit) }.

(** Everything the handlers of [main] read or write. *)
Record AppState : Type := {
  selectedObjects : list jsstring;       (* the SelectionExtension *)
  cameraViews : list CameraView;         (* setCameraView requests, oldest first *)
  sections : SectionTool;
  sceneBox : Box3;                       (* viewer.getRenderer().sceneBox *)
  measurements : MeasurementsUI.State;
  treeNodeMap : JSMap TreeNode;
  pane : Pane;
  sectionEnabled : bool;
  btnUrlDoc : option N;                  (* null, or the button's API object *)
  console : list jsstring;               (* console.log lines, oldest first *)
  windows : list (JSValue * jsstring)    (* window.open calls, oldest first *)
}.

Definition with_selectedObjects (v : list jsstring) (s : AppState) : AppState :=
  {| selectedObjects := v; cameraViews := cameraViews s; sections := sections s;
     sceneBox := sceneBox s; measurements := measurements s;
     treeNodeMap := treeNodeMap s; pane := pane s;
     sectionEnabled := sectionEnabled s; btnUrlDoc := btnUrlDoc s;
     console := console s; windows := windows s |}.

Definition with_cameraViews (v : list CameraView) (s : AppState) : AppState :=
  {| selectedObjects := selectedObjects s; cameraViews := v; sections := sections s;
     sceneBox := sceneBox s; measurements := measurements s;
     treeNodeMap := treeNodeMap s; pane := pane s;
     sectionEnabled := sectionEnabled s; btnUrlDoc := btnUrlDoc s;
     console := console s; windows := windows s |}.

Definition with_sections (v : SectionTool) (s : AppState) : AppState :=
  {| selectedObjects := selectedObjects s; cameraViews := cameraViews s; sections := v;
     sceneBox := sceneBox s; measurements := measurements s;
     treeNodeMap := treeNodeMap s; pane := pane s;
     sectionEnabled := sectionEnabled s; btnUrlDoc := btnUrlDoc s;
     console := console s; windows := windows s |}.

Definition with_measurements (v : MeasurementsUI.State) (s : AppState) : AppState :=
  {| selectedObjects := selectedObjects s; cameraViews := cameraViews s;
     sections := sections s; sceneBox := sceneBox s; measurements := v;
     treeNodeMap := treeNodeMap s; pane := pane s;
     sectionEnabled := sectionEnabled s; btnUrlDoc := btnUrlDoc s;
     console := console s; windows := windows s |}.

Definition with_pane (v : Pane) (s : AppState) : AppState :=
  {| selectedObjects := selectedObjects s; cameraViews := cameraViews s;
     sections := sections s; sceneBox := sceneBox s; measurements := measurements s;
     treeNodeMap := treeNodeMap s; pane := v;
     sectionEnabled := sectionEnabled s; btnUrlDoc := btnUrlDoc s;
     console := console s; windows := windows s |}.

Definition with_sectionEnabled (v : bool) (s : AppState) : AppState :=
  {| selectedObjects := selectedObjects s; cameraViews := cameraViews s;
     sections := sections s; sceneBox := sceneBox s; measurements := measurements s;
     treeNodeMap := treeNodeMap s; pane := pane s;
     sectionEnabled := v; btnUrlDoc := btnUrlDoc s;
     console := console s; windows := windows s |}.

Definition with_btnUrlDoc (v : option N) (s : AppState) : AppState :=
  {| selectedObjects := selectedObjects s; cameraViews := cameraViews s;
     sections := sections s; sceneBox := sceneBox s; measurements := measurements s;
     treeNodeMap := treeNodeMap s; pane := pane s;
     sectionEnabled := sectionEnabled s; btnUrlDoc := v;
     console := console s; windows := windows s |}.

Definition with_console (v : list jsstring) (s : AppState) : AppState :=
  {| selectedObjects := selectedObjects s; cameraViews := cameraViews s;
     sections := sections s; sceneBox := sceneBox s; measurements := measurements s;
     treeNodeMap := treeNodeMap s; pane := pane s;
     sectionEnabled := sectionEnabled s; btnUrlDoc := btnUrlDoc s;
     console := v; windows := windows s |}.

Definition with_windows (v : list (JSValue * jsstring)) (s : AppState) : AppState :=
  {| selectedObjects := selectedObjects s; cameraViews := cameraViews s;
     sections := sections s; sceneBox := sceneBox s; measurements := measurements s;
     treeNodeMap := treeNodeMap s; pane := pane s;
     sectionEnabled := sectionEnabled s; btnUrlDoc := btnUrlDoc s;
     console := console s; windows := v |}.

(* ================================================================== *)
(** ** main.ts: the handlers *)

(** A handler runs on the application state and completes normally or
    raises; in both cases the writes it made stay. *)
Definition Handler (A : Type) : Type := AppState -> Completion A * AppState.

Definition ret {A} (a : A) : Handler A := fun s => (Normal a, s).

Definition bind {A B} (h : Handler A) (k : A -> Handler B) : Handler B :=
  fun s =>
    match h s with
    | (Normal a, s') => k a s'
    | (Throw e, s') => (Throw e, s')
    end.

Definition lift {A} (c : Completion A) : Handler A := fun s => (c, s).
Definition read {A} (f : AppState -> A) : Handler A := fun s => (Normal (f s), s).
Definition update (f : AppState -> AppState) : Handler unit := fun s => (Normal tt, f s).

Declare Scope handler_scope.
Delimit Scope handler_scope with handler.
Notation "x <- c ;; k" := (bind c (fun x => k))
  (at level 61, c at next level, right associativity) : handler_scope.
Notation "c ;; k" := (bind c (fun _ => k))
  (at level 61, right associativity) : handler_scope.
Local Open Scope handler_scope.

(** [selection.clearSelection()] *)
Definition clearSelection : Handler unit := update (with_selectedObjects []).

(** [cameraController.setCameraView(ids, transition)] *)
Definition setCameraView (ids : list jsstring) (transition : bool) : Handler unit :=
  update (fun s =>
    with_cameraViews
      (cameraViews s ++ [{| view_ids := ids; view_transition := transition |}]) s).

(** [pane.addButton(params)] *)
Definition addButton (bp : ButtonParams) : Handler N :=
  fun s => let (r, p) := pane_add (pane s) (Button bp None) in
           (Normal r, with_pane p s).

(** [api.on('click', cb)], which returns [api] *)
Definition on_click_do (r : N) (cb : ClickCallback) : Handler N :=
  fun s => (Normal r, with_pane (pane_on_click (pane s) r cb) s).

(** [pane.remove(api)] *)
Definition remove (r : N) : Handler unit :=
  update (fun s => with_pane (pane_remove (pane s) r) s).

(** [console.log(line)] *)
Definition console_log (line : jsstring) : Handler unit :=
  update (fun s => with_console (console s ++ [line]) s).

Definition doc_button (is_disabled : bool) : ButtonParams :=
  {| title := utf16 "Ouvrir URL"; disabled := is_disabled;
     label := Some (utf16 "Doc") |}.

(** Lines 166-190.  The test [parameterUrl && parameterUrl.trim() !== '']
    calls [trim] only on a truthy value. *)
Definition createOrUpdateButton (parameterUrl : JSValue) : Handler unit :=
  old <- read btnUrlDoc ;;
  match old with
  | Some b => remove b
  | None => ret tt
  end ;;
  usable <- (if truthy parameterUrl
             then trimmed <- lift (call_trim parameterUrl) ;;
                  ret (negb (jsstring_eqb trimmed []))
             else ret false) ;;
  if (usable : bool)
  then b <- addButton (doc_button false) ;;
       b' <- on_click_do b (OpenWindow parameterUrl) ;;
       update (with_btnUrlDoc (Some b'))
  else b <- addButton (doc_button true) ;;
       update (with_btnUrlDoc (Some b)).

(** The object literal of [|| {}]; nothing keeps a reference to it. *)
Definition empty_object : JSValue := JObj 0 [].

(** The lookup both [ZoomOnTreeNode] (lines 239-241) and the click handler
    (lines 254-256) make.  [raw] is a dictionary, so [raw?.properties]
    reads its property. *)
Definition url_of_node (treeNodeData : NodeData) : Handler JSValue :=
  let properties := dict_get (raw treeNodeData) (utf16 "properties") in
  let userData :=
    js_or (optional_member properties (utf16 "Données utilisateur")) empty_object in
  url_doc <- lift (member userData (utf16 "URL_DOC")) ;;
  ret (js_or url_doc JNull).

(** Lines 233-245. *)
Definition ZoomOnTreeNode (targetTreeNode : TreeNode) : Handler unit :=
  clearSelection ;;
  setCameraView [id (model targetTreeNode)] true ;;
  parameterUrl <- url_of_node (model targetTreeNode) ;;
  createOrUpdateButton parameterUrl.

Definition id_echappement : jsstring := utf16 "43f5ec360a6eb64885aef52d54281f2f".
Definition id_catalyseur : jsstring := utf16 "7d99a80b449d360e6380c0108737ae1a".

Definition not_found_message (value : jsstring) : jsstring :=
  utf16 "Impossible de trouver le node pour l'élément " ++ value.

(** The 'change' handler of the dropdown, lines 204-230. *)
Definition on_dropdown_change (value : jsstring) : Handler unit :=
  tnFinded <-
    (if jsstring_eqb value (utf16 "all") then
       clearSelection ;;
       setCameraView [] false ;;
       createOrUpdateButton JNull ;;
       ret None
     else if jsstring_eqb value (utf16 "echappement") then
       read (fun s => map_get (treeNodeMap s) (JStr id_echappement))
     else if jsstring_eqb value (utf16 "catalyseur") then
       read (fun s => map_get (treeNodeMap s) (JStr id_catalyseur))
     else ret None) ;;
  match tnFinded with
  | Some tn => ZoomOnTreeNode tn
  | None => console_log (not_found_message value)
  end.

(** The [ObjectClicked] handler, lines 248-261. *)
Definition on_object_clicked (selectionEvent : option SelectionEvent) : Handler unit :=
  match selectionEvent with
  | None => ret tt
  | Some ev =>
      match hits ev with
      | None => ret tt
      | Some [] => lift (Throw (TypeError "Cannot read properties of undefined"))
      | Some (hit :: _) =>
          let treeNode := node hit in
          let treeNodeData := model treeNode in
          parameterUrl <- url_of_node treeNodeData ;;
          createOrUpdateButton parameterUrl
      end
  end.

(** What a click callback does. *)
Definition run_click (cb : ClickCallback) : Handler unit :=
  match cb with
  | ToggleSectionBoxes =>
      update (fun s => with_sectionEnabled (negb (sectionEnabled s)) s) ;;
      update (fun s =>
        with_sections {| sections_enabled := sectionEnabled s;
                         sections_box := sections_box (sections s) |} s)
  | ResetSectionBoxes =>
      update (fun s =>
        with_sections {| sections_enabled := sections_enabled (sections s);
                         sections_box := Some (section_box (sceneBox s)) |} s)
  | OpenWindow parameterUrl =>
      update (fun s => with_windows (windows s ++ [(parameterUrl, utf16 "_blank")]) s)
  end.

(** A click on the blade [r] of the control panel: an enabled button
    runs its callback. *)
Definition on_click (r : N) : Handler unit :=
  b <- read (fun s => pane_lookup (pane s) r) ;;
  match b with
  | Some (Button bp (Some cb)) => if disabled bp then ret tt else run_click cb
  | _ => ret tt
  end.

(** A change in the measurement panel. *)
Definition on_measurement_change (c : MeasurementsUI.Change) : Handler unit :=
  update (fun s =>
    with_measurements
      (MeasurementsUI.input_change MeasurementsUI.makeMeasurementsUI c (measurements s)) s).

Inductive Event : Type :=
| DropdownChange (value : jsstring)
| ObjectClicked (selectionEvent : option SelectionEvent)
| Click (blade : N)
| MeasurementChange (c : MeasurementsUI.Change).

Definition handle (e : Event) : Handler unit :=
  match e with
  | DropdownChange value => on_dropdown_change value
  | ObjectClicked ev => on_object_clicked ev
  | Click r => on_click r
  | MeasurementChange c => on_measurement_change c
  end.

(** The state after a sequence of events; an exception in a handler is
    reported and the page goes on with the state as the handler left it. *)
Definition after (events : list Event) (s : AppState) : AppState :=
  fold_left (fun st e => snd (handle e st)) events s.

(* ================================================================== *)
(** ** main.ts: start-up (lines 25-161, 192-203) *)

Module Ext.
(** The extension classes handed to [viewer.createExtension]. *)
Inductive Class : Type :=
  CameraController | MeasurementsExtension | SelectionExtension
| SectionTool | SectionOutlines.
End Ext.

(** How a promise handed to [await] ends. *)
Inductive Settled (A : Type) : Type :=
| Fulfills (a : A)
| Rejects (e : JSError)
| NeverSettles.
Arguments Fulfills {A} a.
Arguments Rejects {A} e.
Arguments NeverSettles {A}.

(** What [main] finds around it: the page, the two library calls that
    receive a page element, the three promises, and the viewer once the
    objects are in. *)
Record Environment : Type := {
  has_spinner : bool;                (* getElementById('spinner') is an element *)
  has_renderer : bool;               (* getElementById('renderer') *)
  has_loading_spinner : bool;        (* getElementById('loading-spinner') *)
  Spinner_spin : bool -> Completion unit;  (* spin(target), target an element or null *)
  Viewer_new : bool -> Completion unit;    (* new Viewer(container, params) *)
  viewer_init : Settled unit;
  getResourceUrls : Settled (list jsstring);
  loadObject : jsstring -> Settled unit;
  worldTree : TreeNode;
  renderer_sceneBox : Box3;
  new_SectionTool : SectionTool;
  new_MeasurementsExtension : MeasurementsUI.Extension
}.

Inductive AsyncOp : Type :=
| ViewerInit
| GetResourceUrls
| LoadObject (url : jsstring).

(** The steps of a run of [main], as they happen. *)
Inductive Step : Type :=
| Spin (target : bool)
| NewViewer (container : bool)
| Begin (op : AsyncOp)               (* the call whose promise is awaited *)
| Resume (op : AsyncOp)              (* the promise fulfilled, [main] goes on *)
| CreateExtension (c : Ext.Class)
| SpinnerStop
| HideLoadingDiv.

(** Where a run of [main] ends: its promise resolves, rejects, or it
    stays at an [await]. *)
Inductive Progress (A : Type) : Type :=
| Done (a : A)
| Rejected (e : JSError)
| Suspended.
Arguments Done {A} a.
Arguments Rejected {A} e.
Arguments Suspended {A}.

Definition Async (A : Type) : Type := (list Step * Progress A)%type.

Definition aret {A} (a : A) : Async A := ([], Done a).

Definition abind {A B} (m : Async A) (k : A -> Async B) : Async B :=
  match m with
  | (t, Done a) => let (t', r) := k a in (t ++ t', r)
  | (t, Rejected e) => (t, Rejected e)
  | (t, Suspended) => (t, Suspended)
  end.

(** A synchronous call. *)
Definition call {A} (s : Step) (c : Completion A) : Async A :=
  match c with
  | Normal a => ([s], Done a)
  | Throw e => ([s], Rejected e)
  end.

(** [await promise] *)
Definition await {A} (op : AsyncOp) (p : Settled A) : Async A :=
  match p with
  | Fulfills a => ([Begin op; Resume op], Done a)
  | Rejects e => ([Begin op], Rejected e)
  | NeverSettles => ([Begin op], Suspended)
  end.

Declare Scope async_scope.
Delimit Scope async_scope with async.
Notation "x <- c ;; k" := (abind c (fun x => k))
  (at level 61, c at next level, right associativity) : async_scope.
Notation "c ;; k" := (abind c (fun _ => k))
  (at level 61, right associativity) : async_scope.

(** [for (const url of urls) { ...; await viewer.loadObject(loader, true) }] *)
Fixpoint load_all (env : Environment) (urls : list jsstring) : Async unit :=
  match urls with
  | [] => aret tt
  | url :: r =>
      (await (LoadObject url) (loadObject env url) ;;
       load_all env r)%async
  end.

(** The control panel as lines 117, 150-161 and 193-203 leave it. *)
Definition initial_pane : Pane :=
  let p0 := {| next_ref := 0; blades := [] |} in
  let (b1, p1) :=
    pane_add p0 (Button {| title := utf16 "Toggle Section Boxes";
                           disabled := false; label := None |} None) in
  let p2 := pane_on_click p1 b1 ToggleSectionBoxes in
  let (b2, p3) :=
    pane_add p2 (Button {| title := utf16 "Reset Section Boxes";
                           disabled := false; label := None |} None) in
  let p4 := pane_on_click p3 b2 ResetSectionBoxes in
  snd (pane_add p4
         (ListBlade (utf16 "Éléments")
            [ (utf16 "Catalyseur", utf16 "catalyseur");
              (utf16 "Échappement", utf16 "echappement");
              (utf16 "All", utf16 "all") ]
            (utf16 "all"))).

(** The state the handlers start from (lines 86-114, 149, 163):
    measurements disabled, the map filled, the section tool toggled and
    given its box. *)
Definition initial_state (env : Environment) (m : JSMap TreeNode) : AppState :=
  let ext := new_MeasurementsExtension env in
  {| selectedObjects := [];
     cameraViews := [];
     sections := {| sections_enabled := negb (sections_enabled (new_SectionTool env));
                    sections_box := Some (section_box (renderer_sceneBox env)) |};
     sceneBox := renderer_sceneBox env;
     measurements :=
       {| MeasurementsUI.params := MeasurementsUI.measurementsParams;
          MeasurementsUI.measurementsExtension :=
            {| MeasurementsUI.ext_enabled := false;
               MeasurementsUI.ext_options := MeasurementsUI.ext_options ext;
               MeasurementsUI.ext_calls := MeasurementsUI.ext_calls ext |} |};
     treeNodeMap := m;
     pane := initial_pane;
     sectionEnabled := true;
     btnUrlDoc := None;
     console := [];
     windows := [] |}.

(** [main]: no step is guarded but the hiding of the loading element,
    and no exception is caught.  The placement of the panel (lines
    119-146) only writes styles and is left out. *)
Definition main (env : Environment) : Async AppState :=
  (let spinnerTarget := has_spinner env in
   call (Spin spinnerTarget) (Spinner_spin env spinnerTarget) ;;
   let container := has_renderer env in
   call (NewViewer container) (Viewer_new env container) ;;
   await ViewerInit (viewer_init env) ;;
   call (CreateExtension Ext.CameraController) (Normal tt) ;;
   call (CreateExtension Ext.MeasurementsExtension) (Normal tt) ;;
   call (CreateExtension Ext.SelectionExtension) (Normal tt) ;;
   call (CreateExtension Ext.SectionTool) (Normal tt) ;;
   call (CreateExtension Ext.SectionOutlines) (Normal tt) ;;
   urls <- await GetResourceUrls (getResourceUrls env) ;;
   load_all env urls ;;
   call SpinnerStop (Normal tt) ;;
   (if has_loading_spinner env then call HideLoadingDiv (Normal tt) else aret tt) ;;
   m <- match build_treeNodeMap (worldTree env) with
        | Normal m => aret m
        | Throw e => ([], Rejected e)
        end ;;
   aret (initial_state env m))%async.

(** The awaited operations a run begins, in order. *)
Fixpoint begun (t : list Step) : list AsyncOp :=
  match t with
  | [] => []
  | Begin op :: r => op :: begun r
  | _ :: r => begun r
  end.

(** The awaits of a run do not overlap: an operation that begins is
    resumed from before anything else happens, or is where the run stays. *)
Fixpoint one_at_a_time (t : list Step) : bool :=
  match t with
  | [] => true
  | Begin op :: r =>
      match r with
      | [] => true
      | Resume op' :: r' =>
          match op, op' with
          | ViewerInit, ViewerInit | GetResourceUrls, GetResourceUrls => one_at_a_time r'
          | LoadObject u, LoadObject u' => jsstring_eqb u u' && one_at_a_time r'
          | _, _ => false
          end
      | _ => false
      end
  | Resume _ :: _ => false
  | _ :: r => one_at_a_time r
  end.

(** How the environment settles an operation. *)
Definition settles (env : Environment) (op : AsyncOp) : Settled unit :=
  match op with
  | ViewerInit => viewer_init env
  | GetResourceUrls =>
      match getResourceUrls env with
      | Fulfills _ => Fulfills tt
      | Rejects e => Rejects e
      | NeverSettles => NeverSettles
      end
  | LoadObject url => loadObject env url
  end.

(** The operations of a run in which every promise is fulfilled. *)
Definition startup_order (urls : list jsstring) : list AsyncOp :=
  ViewerInit :: GetResourceUrls :: map LoadObject urls.

(* ================================================================== *)
(** ** Vocabulary of the statements *)

(** The value a scanned node has under [properties.id]. *)
Definition id_value (n : TreeNode) : JSValue :=
  match properties n with
  | JObj _ fs => dict_get fs (utf16 "id")
  | _ => JUndefined
  end.

(** The node has truthy [properties] holding a truthy [id]. *)
Definition has_truthy_id (n : TreeNode) : bool :=
  truthy (properties n) && truthy (id_value n).

(** The node is one of those, and its id is the key [k]. *)
Definition carries (n : TreeNode) (k : JSValue) : Prop :=
  has_truthy_id n = true /\ same_value_zero (id_value n) k = true.

(** The dropdown values that name an element, with the id written in the
    handler for each. *)
Definition known_element (value : jsstring) : option jsstring :=
  if jsstring_eqb value (utf16 "echappement") then Some id_echappement
  else if jsstring_eqb value (utf16 "catalyseur") then Some id_catalyseur
  else None.

(** The value the node's raw properties hold under
    ['Données utilisateur'].URL_DOC ([undefined] when a step is missing). *)
Definition URL_DOC (n : TreeNode) : JSValue :=
  match properties n with
  | JObj _ fs =>
      match dict_get fs (utf16 "Données utilisateur") with
      | JObj _ ufs => dict_get ufs (utf16 "URL_DOC")
      | _ => JUndefined
      end
  | _ => JUndefined
  end.

(** The documentation URL of the claim: a URL_DOC string that is not
    empty once trimmed. *)
Definition documentation_url (n : TreeNode) : option jsstring :=
  match URL_DOC n with
  | JStr s => if jsstring_eqb (trim s) [] then None else Some s
  | _ => None
  end.

(** The panel and the reference once the documentation button has been
    re-created: the button [btnUrlDoc] referred to is gone, a new one is
    the last blade, and [btnUrlDoc] refers to it. *)
Definition recreated (is_disabled : bool) (cb : option ClickCallback)
    (s : AppState) : AppState :=
  let kept :=
    match btnUrlDoc s with
    | Some old => filter (fun rb => negb (N.eqb (fst rb) old)) (blades (pane s))
    | None => blades (pane s)
    end in
  let fresh := next_ref (pane s) in
  with_btnUrlDoc (Some fresh)
    (with_pane {| next_ref := fresh + 1;
                  blades := kept ++ [(fresh, Button (doc_button is_disabled) cb)] |} s).

(** What a click that hits a node is claimed to do (C2), at a state and
    a clicked node. *)
Definition click_sets_button (s : AppState) (n : TreeNode) (others : list Hit) : Prop :=
  on_object_clicked (Some {| hits := Some ({| node := n |} :: others) |}) s
  = match documentation_url n with
    | Some url => (Normal tt, recreated false (Some (OpenWindow (JStr url))) s)
    | None => (Normal tt, recreated true None s)
    end.

(** References are handed out in increasing order: every blade of the
    panel, and the button [btnUrlDoc] refers to, is older than [next_ref]. *)
Definition references_fresh (s : AppState) : Prop :=
  (forall r b, In (r, b) (blades (pane s)) -> (r < next_ref (pane s))%N)
  /\ (forall r, btnUrlDoc s = Some r -> (r < next_ref (pane s))%N).

Definition is_doc_button (b : Blade) : bool :=
  match b with
  | Button bp _ => jsstring_eqb (title bp) (utf16 "Ouvrir URL")
  | ListBlade _ _ _ => false
  end.

(** The references of the documentation buttons the panel shows. *)
Definition doc_buttons (p : Pane) : list N :=
  map fst (filter (fun rb => is_doc_button (snd rb)) (blades p)).

(** A state [main] can be in: the one it installs, after any events. *)
Definition reachable (s : AppState) : Prop :=
  exists env t s0 events, main env = (t, Done s0) /\ s = after events s0.


(* ================================================================== *)
(** ** Auxiliary definitions and a sample model *)

(** The map [forEach] leaves: one [set] per node, in order. *)
Definition set_each (nodes : list TreeNode) (m : JSMap TreeNode) : JSMap TreeNode :=
  fold_left (fun acc n => map_set acc (id_value n) n) nodes m.

Definition node_with_id (model_id : string) (ref : N) (element_id : JSValue)
    (cs : list TreeNode) : TreeNode :=
  mkTreeNode
    {| id := utf16 model_id;
       raw := [(utf16 "properties", JObj ref [(utf16 "id", element_id)])] |} cs.

Definition demo_first : TreeNode := node_with_id "n1" 1 (JStr (utf16 "a")) [].
Definition demo_second : TreeNode := node_with_id "n2" 2 (JStr (utf16 "a")) [].
Definition demo_other : TreeNode := node_with_id "n3" 3 (JStr (utf16 "b")) [demo_second].
Definition demo_root : TreeNode :=
  mkTreeNode {| id := utf16 "ROOT"; raw := [] |} [demo_first; demo_other].

(** What [createOrUpdateButton] and the lookup before it never touch. *)
Definition same_but_button (s s' : AppState) : Prop :=
  selectedObjects s' = selectedObjects s
  /\ cameraViews s' = cameraViews s
  /\ sections s' = sections s
  /\ sceneBox s' = sceneBox s
  /\ measurements s' = measurements s
  /\ treeNodeMap s' = treeNodeMap s
  /\ sectionEnabled s' = sectionEnabled s
  /\ console s' = console s
  /\ windows s' = windows s.

(** A small model: an exhaust with a documentation URL, a part whose
    URL_DOC is the number 42, a part without user data. *)
Definition number_42 : spec_float := S754_finite false 5910974510923776 (-47).

Definition exhaust_url : jsstring := utf16 "https://docs.example/echappement.pdf".

Definition exhaust_node : TreeNode :=
  mkTreeNode
    {| id := utf16 "e1";
       raw := [(utf16 "properties",
                JObj 10 [(utf16 "id", JStr id_echappement);
                         (utf16 "Données utilisateur",
                          JObj 11 [(utf16 "URL_DOC", JStr exhaust_url)])])] |} [].

Definition numbered_node : TreeNode :=
  mkTreeNode
    {| id := utf16 "p2";
       raw := [(utf16 "properties",
                JObj 20 [(utf16 "id", JStr (utf16 "0042"));
                         (utf16 "Données utilisateur",
                          JObj 21 [(utf16 "URL_DOC", JNum number_42)])])] |} [].

Definition plain_node : TreeNode :=
  mkTreeNode {| id := utf16 "p3"; raw := [(utf16 "properties", JObj 30 [])] |} [].

Definition demo_tree : TreeNode :=
  mkTreeNode {| id := utf16 "ROOT"; raw := [] |}
    [exhaust_node; numbered_node; plain_node].

Definition unit_box : Box3 :=
  {| box_min := {| vec_x := number_minus_1; vec_y := number_minus_1; vec_z := number_minus_1 |};
     box_max := {| vec_x := number_1; vec_y := number_1; vec_z := number_1 |} |}.

Definition demo_urls : list jsstring := [utf16 "https://host/objects/a"; utf16 "https://host/objects/b"].

Definition demo_env : Environment :=
  {| has_spinner := true; has_renderer := true; has_loading_spinner := false;
     Spinner_spin := fun _ => Normal tt;
     Viewer_new := fun container =>
       if container then Normal tt
       else Throw (TypeError "Cannot read properties of null");
     viewer_init := Fulfills tt;
     getResourceUrls := Fulfills demo_urls;
     loadObject := fun _ => Fulfills tt;
     worldTree := demo_tree;
     renderer_sceneBox := unit_box;
     new_SectionTool := {| sections_enabled := false; sections_box := None |};
     new_MeasurementsExtension :=
       {| MeasurementsUI.ext_enabled := true;
          MeasurementsUI.ext_options := MeasurementsUI.measurementsParams;
          MeasurementsUI.ext_calls := [] |} |}.

Definition demo_map : JSMap TreeNode :=
  [(JStr id_echappement, exhaust_node); (JStr (utf16 "0042"), numbered_node)].

Definition demo_state : AppState := initial_state demo_env demo_map.

(** The state in which a call that raises leaves things: the old button
    removed, nothing put in its place. *)
Definition removed (s : AppState) : AppState :=
  match btnUrlDoc s with
  | Some old => with_pane (pane_remove (pane s) old) s
  | None => s
  end.

(** What holds of the panel and [btnUrlDoc] in every state: references
    are fresh and distinct, and a documentation button on the panel is
    the one [btnUrlDoc] refers to. *)
Definition button_invariant (s : AppState) : Prop :=
  references_fresh s
  /\ NoDup (map fst (blades (pane s)))
  /\ forall r, In r (doc_buttons (pane s)) -> btnUrlDoc s = Some r.

(** The blades a call keeps. *)
Definition kept (s : AppState) : list (N * Blade) :=
  match btnUrlDoc s with
  | Some old => filter (fun rb => negb (N.eqb (fst rb) old)) (blades (pane s))
  | None => blades (pane s)
  end.

Definition click_on (n : TreeNode) : Event :=
  ObjectClicked (Some {| hits := Some [{| node := n |}] |}).

(** A run is disciplined when its awaits go one at a time, it resumes
    only from fulfilled promises, and an operation that rejects or never
    settles decides how it ends. *)
Definition disciplined (env : Environment) {A} (m : Async A) : Prop :=
  (forall a, snd m = Done a ->
     forall rest, one_at_a_time (fst m ++ rest) = one_at_a_time rest)
  /\ one_at_a_time (fst m) = true
  /\ (forall op, In (Resume op) (fst m) -> settles env op = Fulfills tt)
  /\ (forall op, In (Begin op) (fst m) ->
        (forall e, settles env op = Rejects e -> snd m = Rejected e)
        /\ (settles env op = NeverSettles -> snd m = Suspended)).

(** The resolved value aside. *)
Definition outcome {A} (p : Settled A) : Settled unit :=
  match p with
  | Fulfills _ => Fulfills tt
  | Rejects e => Rejects e
  | NeverSettles => NeverSettles
  end.

(** The URLs the environment resolves, when it does. *)
Definition resolved_urls (env : Environment) : list jsstring :=
  match getResourceUrls env with
  | Fulfills urls => urls
  | _ => []
  end.

Definition stalled_env : Environment :=
  {| has_spinner := true; has_renderer := true; has_loading_spinner := true;
     Spinner_spin := fun _ => Normal tt;
     Viewer_new := fun _ => Normal tt;
     viewer_init := Fulfills tt;
     getResourceUrls := Fulfills demo_urls;
     loadObject := fun url =>
       if jsstring_eqb url (utf16 "https://host/objects/a") then NeverSettles
       else Fulfills tt;
     worldTree := demo_tree;
     renderer_sceneBox := unit_box;
     new_SectionTool := {| sections_enabled := false; sections_box := None |};
     new_MeasurementsExtension := new_MeasurementsExtension demo_env |}.


(* ================================================================== *)
(** ** The placement of the control panel (main.ts, lines 119-146) *)

(** What the placement reads of the first panel ('.tp-dfwv'): both are
    whole numbers of pixels. *)
Record Element : Type := { offsetWidth : N; clientHeight : N }.

(** The style properties of the control panel that [main] writes. *)
Record Style : Type := {
  style_position : jsstring;
  style_left : jsstring;
  style_width : jsstring;
  style_top : jsstring
}.

(** [`${n}`] for a whole number: its decimal digits. *)
Definition number_to_string (n : N) : jsstring :=
  utf16 (NilZero.string_of_uint (N.to_uint n)).

(** [`${n}px`] *)
Definition px (n : N) : jsstring := number_to_string n ++ utf16 "px".

(** Lines 126-135, given what [querySelector] returned: null, or the
    element as it measures at the time of the call. *)
Definition adjustControlPanelPosition (firstPaneElement : option Element)
    (paneStyle : Style) : Style :=
  match firstPaneElement with
  | Some el =>
      let firstPaneWidth := offsetWidth el in
      let isExpanded := (40 <? clientHeight el)%N in
      {| style_position := style_position paneStyle;
         style_left := style_left paneStyle;
         style_width := px firstPaneWidth;
         style_top := if isExpanded then px (clientHeight el + 10)
                      else utf16 "40px" |}
  | None => paneStyle
  end.

(** Lines 122-123 and 138: the two fixed properties, then a first
    adjustment. *)
Definition place_panel (firstPaneElement : option Element) (paneStyle : Style) : Style :=
  adjustControlPanelPosition firstPaneElement
    {| style_position := utf16 "absolute";
       style_left := utf16 "1px";
       style_width := style_width paneStyle;
       style_top := style_top paneStyle |}.

(** [observer.observe(firstPaneElement, ...)], line 142: a null target is
    not a node, and the call raises. *)
Definition observe (firstPaneElement : option Element) : Completion unit :=
  match firstPaneElement with
  | Some _ => Normal tt
  | None => Throw (TypeError "parameter 1 is not of type 'Node'")
  end.

(** The observer of lines 141-146 calls the same function on every
    mutation of the first panel.  The function tests the element line 120
    captured: it is that element, measuring as it does at the call, or it
    is null still.  [readings] are the measures at those calls. *)
Definition observed (firstPaneElement : option Element) (readings : list Element)
    (paneStyle : Style) : Style :=
  fold_left
    (fun st el =>
       adjustControlPanelPosition
         (match firstPaneElement with
          | Some _ => Some el
          | None => None
          end) st)
    readings paneStyle.

(* ================================================================== *)
(** ** Further vocabulary *)

(** No two entries of a map have the same key. *)
Fixpoint keys_distinct {V} (m : JSMap V) : Prop :=
  match m with
  | [] => True
  | (k, _) :: r => map_get r k = None /\ keys_distinct r
  end.

(** No two scanned nodes share an id. *)
Definition ids_unique (root : TreeNode) : Prop :=
  forall n1 n2,
    In n1 (walk root) -> In n2 (walk root) ->
    has_truthy_id n1 = true -> has_truthy_id n2 = true ->
    same_value_zero (id_value n1) (id_value n2) = true -> n1 = n2.

Definition is_string (v : JSValue) : bool :=
  match v with
  | JStr _ => true
  | _ => false
  end.

(** The values [createOrUpdateButton] calls [trim] on without their
    having it: truthy and not a string. *)
Definition cannot_trim (v : JSValue) : bool := truthy v && negb (is_string v).

(** A string with a code unit that is not white space. *)
Definition has_text (v : JSValue) : bool :=
  match v with
  | JStr t => existsb (fun c => negb (is_white_space c)) t
  | _ => false
  end.

Definition raises {A} (c : Completion A) : bool :=
  match c with
  | Throw _ => true
  | Normal _ => false
  end.

(** The events whose handler ends on an exception: a click with an empty
    list of hits, and a click or an element selection that reaches a node
    whose URL_DOC cannot be trimmed. *)
Definition offending (e : Event) (s : AppState) : bool :=
  match e with
  | ObjectClicked (Some ev) =>
      match hits ev with
      | Some [] => true
      | Some (hit :: _) => cannot_trim (URL_DOC (node hit))
      | None => false
      end
  | DropdownChange value =>
      match known_element value with
      | Some elementId =>
          match map_get (treeNodeMap s) (JStr elementId) with
          | Some tn => cannot_trim (URL_DOC tn)
          | None => false
          end
      | None => false
      end
  | _ => false
  end.

(** The states a run of [main] in [env] can be in. *)
Definition reachable_from (env : Environment) (s : AppState) : Prop :=
  exists t s0 events, main env = (t, Done s0) /\ s = after events s0.

(** Every promise of the start-up is fulfilled and the two constructors
    return. *)
Definition all_goes_well (env : Environment) : Prop :=
  Spinner_spin env (has_spinner env) = Normal tt
  /\ Viewer_new env (has_renderer env) = Normal tt
  /\ viewer_init env = Fulfills tt
  /\ exists urls, getResourceUrls env = Fulfills urls
                  /\ forall url, In url urls -> loadObject env url = Fulfills tt.

(** The same surroundings, with or without the 'loading-spinner'
    element. *)
Definition with_loading_spinner (present : bool) (env : Environment) : Environment :=
  {| has_spinner := has_spinner env; has_renderer := has_renderer env;
     has_loading_spinner := present;
     Spinner_spin := Spinner_spin env; Viewer_new := Viewer_new env;
     viewer_init := viewer_init env; getResourceUrls := getResourceUrls env;
     loadObject := loadObject env; worldTree := worldTree env;
     renderer_sceneBox := renderer_sceneBox env;
     new_SectionTool := new_SectionTool env;
     new_MeasurementsExtension := new_MeasurementsExtension env |}.

Definition is_hiding (s : Step) : bool :=
  match s with
  | HideLoadingDiv => true
  | _ => false
  end.

(** The panel as [main] builds it, with at most one documentation button
    after its three blades. *)
Definition panel_shape (s : AppState) : Prop :=
  blades (pane s) = blades initial_pane
  \/ exists r d cb,
       blades (pane s) = blades initial_pane ++ [(r, Button (doc_button d) cb)]
       /\ btnUrlDoc s = Some r.

(** Every URL the page has opened or may open on a click is a string
    with text, opened in a new tab. *)
Definition opens_only_text (s : AppState) : Prop :=
  (forall r bp u, In (r, Button bp (Some (OpenWindow u))) (blades (pane s)) ->
                  has_text u = true)
  /\ (forall u target, In (u, target) (windows s) ->
                       has_text u = true /\ target = utf16 "_blank").




(** The measurement panel and extension as [main] leaves them. *)
Definition initial_measurements (env : Environment) : MeasurementsUI.State :=
  measurements (initial_state env []).

(** The full statement the proof carries: the shape, and references of
    documentation buttons that start at 3. *)
Definition shaped (s : AppState) : Prop :=
  panel_shape s
  /\ (3 <= next_ref (pane s))%N
  /\ (forall r, btnUrlDoc s = Some r -> (3 <= r)%N).

(** The environment fulfils the promise of [op]. *)
Definition fulfilled (env : Environment) (op : AsyncOp) : bool :=
  match settles env op with
  | Fulfills _ => true
  | _ => false
  end.

(** The operations of a list up to and with the first whose promise is
    not fulfilled. *)
Fixpoint until_unfulfilled (env : Environment) (ops : list AsyncOp) : list AsyncOp :=
  match ops with
  | [] => []
  | op :: r => op :: (if fulfilled env op then until_unfulfilled env r else [])
  end.

(** Both constructors return. *)
Definition constructed (env : Environment) : bool :=
  match Spinner_spin env (has_spinner env), Viewer_new env (has_renderer env) with
  | Normal _, Normal _ => true
  | _, _ => false
  end.

Definition is_await (s : Step) : bool :=
  match s with
  | Begin _ | Resume _ => true
  | _ => false
  end.

(** The steps of awaiting [ops] in turn: each begins, and is resumed
    from when fulfilled. *)
Definition awaited (env : Environment) (ops : list AsyncOp) : list Step :=
  flat_map (fun op => if fulfilled env op then [Begin op; Resume op] else [Begin op]) ops.

(** spin.js, [spin(target)]: the spinner is put into the target
    [if (target)]; a null target is tested, not used, and the call
    returns. *)
Definition spin_js (target : bool) : Completion unit := Normal tt.


(** A page without the 'spinner' element, where all else goes well. *)
Definition no_spinner_env : Environment :=
  {| has_spinner := false; has_renderer := true; has_loading_spinner := true;
     Spinner_spin := spin_js;
     Viewer_new := Viewer_new demo_env;
     viewer_init := Fulfills tt;
     getResourceUrls := Fulfills demo_urls;
     loadObject := fun _ => Fulfills tt;
     worldTree := demo_tree;
     renderer_sceneBox := unit_box;
     new_SectionTool := new_SectionTool demo_env;
     new_MeasurementsExtension := new_MeasurementsExtension demo_env |}.


(* ================================================================== *)
(** ** Facts on values and maps *)

Lemma jsstring_eqb_eq (a b : jsstring) : jsstring_eqb a b = true <-> a = b.
Proof.
  revert b; induction a as [|x a IH]; intros [|y b]; simpl; try easy.
  rewrite andb_true_iff, N.eqb_eq, IH.
  split; [intros [-> ->]; reflexivity | intros [= -> ->]; auto].
Qed.

Example utf16_latin : utf16 "Éléments" = [201; 108; 233; 109; 101; 110; 116; 115]%N.
Proof. reflexivity. Qed.

Example utf16_three_bytes : utf16 "€" = [8364%N].
Proof. reflexivity. Qed.

Example utf16_surrogates : utf16 "😀" = [55357; 56832]%N.
Proof. reflexivity. Qed.

Example trim_both_ends : trim (9 :: 160 :: utf16 " a b " ++ [8232; 65279])%N = utf16 "a b".
Proof. reflexivity. Qed.

Example trim_blank : trim (utf16 "   ") = [].
Proof. reflexivity. Qed.

Lemma jsstring_eqb_refl (a : jsstring) : jsstring_eqb a a = true.
Proof. now apply jsstring_eqb_eq. Qed.

Lemma number_same_value_zero_refl x : number_same_value_zero x x = true.
Proof.
  destruct x; simpl; auto using eqb_reflx.
  now rewrite eqb_reflx, Pos.eqb_refl, Z.eqb_refl.
Qed.

Lemma number_same_value_zero_sym x y :
  number_same_value_zero x y = number_same_value_zero y x.
Proof.
  destruct x, y; simpl; auto.
  - destruct s, s0; reflexivity.
  - now rewrite (Pos.eqb_sym m), (Z.eqb_sym e); destruct s, s0.
Qed.

Lemma number_same_value_zero_trans x y z :
  number_same_value_zero x y = true -> number_same_value_zero y z = true ->
  number_same_value_zero x z = true.
Proof.
  destruct x, y, z; simpl; try easy.
  - rewrite !eqb_true_iff; congruence.
  - rewrite !andb_true_iff, !eqb_true_iff, !Pos.eqb_eq, !Z.eqb_eq.
    intros [[-> ->] ->] [[-> ->] ->]; auto.
Qed.

Lemma same_value_zero_refl k : same_value_zero k k = true.
Proof.
  destruct k; simpl;
    auto using eqb_reflx, number_same_value_zero_refl, jsstring_eqb_refl, N.eqb_refl.
Qed.

Lemma same_value_zero_sym a b : same_value_zero a b = same_value_zero b a.
Proof.
  destruct a, b; simpl; auto using number_same_value_zero_sym, N.eqb_sym.
  - destruct b, b0; reflexivity.
  - destruct (jsstring_eqb s s0) eqn:E.
    + apply jsstring_eqb_eq in E as ->. now rewrite jsstring_eqb_refl.
    + destruct (jsstring_eqb s0 s) eqn:E'; auto.
      apply jsstring_eqb_eq in E' as ->. now rewrite jsstring_eqb_refl in E.
Qed.

Lemma same_value_zero_trans a b c :
  same_value_zero a b = true -> same_value_zero b c = true ->
  same_value_zero a c = true.
Proof.
  destruct a, b, c; simpl; try easy.
  - rewrite !eqb_true_iff; congruence.
  - apply number_same_value_zero_trans.
  - rewrite !jsstring_eqb_eq; congruence.
  - rewrite !N.eqb_eq; congruence.
  - rewrite !N.eqb_eq; congruence.
Qed.

(** Two keys the map identifies answer every query alike. *)
Lemma same_value_zero_query a b q :
  same_value_zero a b = true -> same_value_zero a q = same_value_zero b q.
Proof.
  intros Hab.
  destruct (same_value_zero b q) eqn:Hbq.
  - eapply same_value_zero_trans; eauto.
  - destruct (same_value_zero a q) eqn:Haq; auto.
    rewrite same_value_zero_sym in Hab.
    now rewrite (same_value_zero_trans _ _ _ Hab Haq) in Hbq.
Qed.

Lemma map_get_set {V} (m : JSMap V) k v q :
  map_get (map_set m k v) q
  = if same_value_zero k q then Some v else map_get m q.
Proof.
  induction m as [|[k1 v1] r IH]; simpl; auto.
  destruct (same_value_zero k1 k) eqn:E; simpl.
  - rewrite (same_value_zero_query _ _ q E).
    now destruct (same_value_zero k q).
  - rewrite IH.
    destruct (same_value_zero k1 q) eqn:E1, (same_value_zero k q) eqn:E2; auto.
    rewrite (same_value_zero_sym k q) in E2.
    now rewrite (same_value_zero_trans _ _ _ E1 E2) in E.
Qed.

(** The scan raises nowhere: [properties.id] is read on truthy
    [properties] only. *)
Lemma properties_id_truthy n :
  truthy (properties n) = true -> properties_id n = Normal (id_value n).
Proof.
  unfold properties_id, id_value, member.
  destruct (properties n); simpl; try easy.
Qed.

Lemma all_has_model_id (l : list TreeNode) :
  all has_model_id l = Normal (filter has_truthy_id l).
Proof.
  induction l as [|n l IH]; simpl; auto.
  rewrite IH. unfold has_model_id, has_truthy_id.
  destruct (truthy (properties n)) eqn:E; simpl.
  - now rewrite properties_id_truthy.
  - now rewrite E.
Qed.

Lemma fill_map_set_each (l : list TreeNode) (m : JSMap TreeNode) :
  (forall n, In n l -> has_truthy_id n = true) ->
  fill_map l m = Normal (set_each l m).
Proof.
  revert m; induction l as [|n l IH]; intros m Hl; simpl; auto.
  assert (Hn : has_truthy_id n = true) by (apply Hl; now left).
  unfold has_truthy_id in Hn. apply andb_true_iff in Hn as [Hp _].
  rewrite (properties_id_truthy _ Hp); simpl.
  apply IH. intros; apply Hl; now right.
Qed.

Lemma build_treeNodeMap_normal (root : TreeNode) :
  build_treeNodeMap root = Normal (set_each (filter has_truthy_id (walk root)) []).
Proof.
  unfold build_treeNodeMap, findAll. rewrite all_has_model_id; simpl.
  apply fill_map_set_each. intros n Hn. now apply filter_In in Hn.
Qed.

(** A lookup after the scan: the last scanned node under the key, or
    what the map held. *)
Lemma map_get_set_each_app (before : list TreeNode) n later (m : JSMap TreeNode) q :
  same_value_zero (id_value n) q = true ->
  (forall n', In n' later -> same_value_zero (id_value n') q = false) ->
  map_get (set_each (before ++ n :: later) m) q = Some n.
Proof.
  intros Hn Hlater.
  unfold set_each. rewrite fold_left_app. simpl.
  set (m1 := map_set _ _ _).
  assert (H1 : map_get m1 q = Some n) by (unfold m1; now rewrite map_get_set, Hn).
  clearbody m1. revert m1 H1.
  induction later as [|n' later IH]; intros m1 H1; simpl; auto.
  apply IH.
  - intros; apply Hlater; now right.
  - rewrite map_get_set, Hlater; auto. now left.
Qed.

Lemma map_get_set_each_none (l : list TreeNode) (m : JSMap TreeNode) q :
  (forall n, In n l -> same_value_zero (id_value n) q = false) ->
  map_get (set_each l m) q = map_get m q.
Proof.
  revert m; induction l as [|n l IH]; intros m Hl; simpl; auto.
  unfold set_each in *; simpl. rewrite IH by (intros; apply Hl; now right).
  rewrite map_get_set, Hl; auto. now left.
Qed.

(** Among the nodes of a list that answer a test, one comes last. *)
Lemma last_occurrence {A} (f : A -> bool) (l : list A) :
  (exists a, In a l /\ f a = true) ->
  exists before a later,
    l = before ++ a :: later /\ f a = true
    /\ forall b, In b later -> f b = false.
Proof.
  induction l as [|x l IH]; intros (a & Ha & Hf); [easy|].
  destruct (existsb f l) eqn:E.
  - apply existsb_exists in E. destruct (IH E) as (before & a' & later & -> & H1 & H2).
    now exists (x :: before), a', later.
  - assert (Hl : forall b, In b l -> f b = false).
    { intros b Hb. destruct (f b) eqn:Eb; auto.
      assert (existsb f l = true) by (apply existsb_exists; eauto). congruence. }
    destruct Ha as [-> | Ha]; [| rewrite (Hl _ Ha) in Hf; easy].
    now exists [], a, l.
Qed.

Lemma map_get_set_each_some (l : list TreeNode) (m : JSMap TreeNode) q n :
  map_get (set_each l m) q = Some n ->
  map_get m q = Some n
  \/ (In n l /\ same_value_zero (id_value n) q = true).
Proof.
  intros H.
  destruct (existsb (fun n' => same_value_zero (id_value n') q) l) eqn:E.
  - apply existsb_exists in E.
    destruct (last_occurrence (fun n' => same_value_zero (id_value n') q) l E)
      as (before & a & later & -> & Ha & Hlater).
    rewrite (map_get_set_each_app before a later m q Ha Hlater) in H.
    injection H as <-. right. split; auto. apply in_or_app; right; now left.
  - left. rewrite map_get_set_each_none in H; auto.
    intros n' Hn'. destruct (same_value_zero (id_value n') q) eqn:En; auto.
    assert (existsb (fun n' => same_value_zero (id_value n') q) l = true)
      by (apply existsb_exists; eauto).
    congruence.
Qed.

(* ================================================================== *)
(** ** The id-to-node map *)

Example scan_example :
  findAll has_model_id demo_root = Normal [demo_first; demo_other; demo_second].
Proof. reflexivity. Qed.

Example map_example :
  build_treeNodeMap demo_root
  = Normal [(JStr (utf16 "a"), demo_second); (JStr (utf16 "b"), demo_other)].
Proof. reflexivity. Qed.

(** C3.  The scan of the world tree completes, with one [set] per node
    that has truthy [properties] holding a truthy [id], in visit order.
    The keys of the resulting map are exactly the ids of those nodes, and
    the node found under a key is a scanned node that carries it. *)
Theorem treeNodeMap_keys (root : TreeNode) :
  exists m,
    build_treeNodeMap root = Normal m
    /\ m = set_each (filter has_truthy_id (walk root)) []
    /\ (forall k, map_has m k = true <-> exists n, In n (walk root) /\ carries n k)
    /\ (forall k n, map_get m k = Some n -> In n (walk root) /\ carries n k).
Proof.
  exists (set_each (filter has_truthy_id (walk root)) []).
  split; [apply build_treeNodeMap_normal|]. split; [reflexivity|].
  assert (Hget : forall k n,
             map_get (set_each (filter has_truthy_id (walk root)) []) k = Some n ->
             In n (walk root) /\ carries n k).
  { intros k n H. apply map_get_set_each_some in H as [H | [Hin Hk]]; [easy|].
    apply filter_In in Hin as [Hin Hsel]. now repeat split. }
  split; [|exact Hget].
  intros k. unfold map_has. split.
  - destruct (map_get _ k) as [n|] eqn:E; [|easy]. intros _. exists n. now apply Hget.
  - intros (n & Hin & Hsel & Hk).
    destruct (last_occurrence (fun n' => same_value_zero (id_value n') k)
                (filter has_truthy_id (walk root))) as (before & a & later & -> & Ha & Hl).
    { exists n. split; auto. now apply filter_In. }
    now rewrite (map_get_set_each_app before a later [] k Ha Hl).
Qed.

(** C8.  When the scan meets several nodes with the same id, the map
    holds under that id the node met last: if [n] carries the key and no
    node scanned after [n] does, the map answers [n], whatever came
    before. *)
Theorem last_scanned_node_wins (root : TreeNode) before n later k :
  findAll has_model_id root = Normal (before ++ n :: later) ->
  carries n k ->
  (forall n', In n' later -> ~ carries n' k) ->
  exists m, build_treeNodeMap root = Normal m /\ map_get m k = Some n.
Proof.
  intros Hscan [_ Hk] Hlater.
  exists (set_each (filter has_truthy_id (walk root)) []).
  split; [apply build_treeNodeMap_normal|].
  unfold findAll in Hscan. rewrite all_has_model_id in Hscan.
  injection Hscan as Hscan. rewrite Hscan.
  apply map_get_set_each_app; auto.
  intros n' Hn'. destruct (same_value_zero (id_value n') k) eqn:E; auto.
  exfalso. apply (Hlater n' Hn'). split; auto.
  assert (Hin : In n' (filter has_truthy_id (walk root)))
    by (rewrite Hscan; apply in_or_app; right; now right).
  now apply filter_In in Hin.
Qed.

Lemma last_scanned_node_wins_witness :
  exists m, build_treeNodeMap demo_root = Normal m
            /\ map_get m (JStr (utf16 "a")) = Some demo_second.
Proof.
  apply (@last_scanned_node_wins demo_root [demo_first; demo_other] demo_second []).
  - reflexivity.
  - split; reflexivity.
  - intros n' [].
Defined.

(* ================================================================== *)
(** ** The measurement panel *)

(** C4.  Whatever field of the measurement panel changes, once the
    binding has written the value and the 'change' callback has run, the
    extension shows that value: the 'enabled' callback copies
    [measurementsParams.enabled] to the extension's [enabled] and leaves
    its options alone; every other callback hands [measurementsParams]
    to the extension's [options], which from then hold the fields of
    [measurementsParams] as they are at that moment, the changed one
    among them, and leaves [enabled] alone. *)
Theorem measurement_change_mirrored
    (c : MeasurementsUI.Change) (st : MeasurementsUI.State) :
  let st' := MeasurementsUI.input_change MeasurementsUI.makeMeasurementsUI c st in
  let ext := MeasurementsUI.measurementsExtension st in
  let ext' := MeasurementsUI.measurementsExtension st' in
  MeasurementsUI.params st' = MeasurementsUI.write c (MeasurementsUI.params st)
  /\ MeasurementsUI.extension_shows c st'
  /\ match c with
     | MeasurementsUI.SetEnabled _ =>
         MeasurementsUI.ext_enabled ext'
         = MeasurementsUI.enabled (MeasurementsUI.params st')
         /\ MeasurementsUI.ext_options ext' = MeasurementsUI.ext_options ext
     | _ =>
         MeasurementsUI.options st'
         = MeasurementsUI.write c (MeasurementsUI.params st)
         /\ MeasurementsUI.ext_enabled ext' = MeasurementsUI.ext_enabled ext
     end.
Proof.
  destruct c; cbn; repeat split; reflexivity.
Qed.

Example precision_change :
  MeasurementsUI.precision
    (MeasurementsUI.options
       (MeasurementsUI.input_change MeasurementsUI.makeMeasurementsUI
          (MeasurementsUI.SetPrecision 4)
          {| MeasurementsUI.params := MeasurementsUI.measurementsParams;
             MeasurementsUI.measurementsExtension :=
               {| MeasurementsUI.ext_enabled := false;
                  MeasurementsUI.ext_options := MeasurementsUI.measurementsParams;
                  MeasurementsUI.ext_calls := [] |} |})) = 4%Z.
Proof. reflexivity. Qed.

(** The options hold a copy: 'enabled' was off when 'visible' changed and
    stays off in the options when the 'enabled' field is switched on
    afterwards, which only sets the extension's own [enabled]. *)
Example options_hold_a_copy :
  let st :=
    fold_left (fun s c => MeasurementsUI.input_change MeasurementsUI.makeMeasurementsUI c s)
      [MeasurementsUI.SetVisible false; MeasurementsUI.SetEnabled true]
      {| MeasurementsUI.params := MeasurementsUI.measurementsParams;
         MeasurementsUI.measurementsExtension :=
           {| MeasurementsUI.ext_enabled := false;
              MeasurementsUI.ext_options := MeasurementsUI.measurementsParams;
              MeasurementsUI.ext_calls := [] |} |} in
  MeasurementsUI.visible (MeasurementsUI.options st) = false
  /\ MeasurementsUI.enabled (MeasurementsUI.options st) = false
  /\ MeasurementsUI.enabled (MeasurementsUI.params st) = true
  /\ MeasurementsUI.ext_enabled (MeasurementsUI.measurementsExtension st) = true.
Proof. repeat split. Qed.

(* ================================================================== *)
(** ** Facts on the handlers *)

Arguments utf16 : simpl never.
Arguments trim : simpl never.

Ltac run_handler :=
  unfold bind, read, update, lift, ret, remove, addButton, on_click_do,
    clearSelection, setCameraView, console_log; cbn.

Lemma createOrUpdateButton_frame (u : JSValue) (s : AppState) :
  same_but_button s (snd (createOrUpdateButton u s)).
Proof.
  unfold createOrUpdateButton, same_but_button. run_handler.
  destruct (btnUrlDoc s); cbn;
    (destruct (truthy u); cbn;
     [ destruct (call_trim u) as [t|e]; cbn;
       [ destruct (negb (jsstring_eqb t [])); cbn | ] | ]);
    repeat split; reflexivity.
Qed.

(** The lookup of the URL never raises and changes nothing. *)
Lemma url_of_node_URL_DOC (n : TreeNode) (s : AppState) :
  url_of_node (model n) s = (Normal (js_or (URL_DOC n) JNull), s).
Proof.
  unfold url_of_node, URL_DOC, properties. run_handler.
  destruct (dict_get (raw (model n)) (utf16 "properties")) as [| |b|x|t|r fs|r xs];
    cbn; try reflexivity.
  unfold js_or.
  destruct (dict_get fs (utf16 "Données utilisateur")) as [| |b|x|t|r' ufs|r' xs];
    cbn; try reflexivity.
  - destruct b; reflexivity.
  - destruct x; reflexivity.
  - destruct t; reflexivity.
Qed.

Lemma on_dropdown_change_echappement (s : AppState) :
  on_dropdown_change (utf16 "echappement") s
  = match map_get (treeNodeMap s) (JStr id_echappement) with
    | Some tn => ZoomOnTreeNode tn s
    | None => console_log (not_found_message (utf16 "echappement")) s
    end.
Proof.
  unfold on_dropdown_change.
  change (jsstring_eqb (utf16 "echappement") (utf16 "all")) with false.
  change (jsstring_eqb (utf16 "echappement") (utf16 "echappement")) with true.
  cbv beta iota. unfold bind at 1, read.
  destruct (map_get (treeNodeMap s) (JStr id_echappement)); reflexivity.
Qed.

Lemma on_dropdown_change_catalyseur (s : AppState) :
  on_dropdown_change (utf16 "catalyseur") s
  = match map_get (treeNodeMap s) (JStr id_catalyseur) with
    | Some tn => ZoomOnTreeNode tn s
    | None => console_log (not_found_message (utf16 "catalyseur")) s
    end.
Proof.
  unfold on_dropdown_change.
  change (jsstring_eqb (utf16 "catalyseur") (utf16 "all")) with false.
  change (jsstring_eqb (utf16 "catalyseur") (utf16 "echappement")) with false.
  change (jsstring_eqb (utf16 "catalyseur") (utf16 "catalyseur")) with true.
  cbv beta iota. unfold bind at 1, read.
  destruct (map_get (treeNodeMap s) (JStr id_catalyseur)); reflexivity.
Qed.

(** A known element is one of the two values, with its id. *)
Lemma known_element_cases value elementId :
  known_element value = Some elementId ->
  (value = utf16 "echappement" /\ elementId = id_echappement)
  \/ (value = utf16 "catalyseur" /\ elementId = id_catalyseur).
Proof.
  unfold known_element.
  destruct (jsstring_eqb value (utf16 "echappement")) eqn:E1.
  - apply jsstring_eqb_eq in E1. intros H.
    assert (elementId = id_echappement) by congruence. now left.
  - destruct (jsstring_eqb value (utf16 "catalyseur")) eqn:E2; [|easy].
    apply jsstring_eqb_eq in E2. intros H.
    assert (elementId = id_catalyseur) by congruence. now right.
Qed.

Lemma on_dropdown_change_known value elementId (s : AppState) :
  known_element value = Some elementId ->
  on_dropdown_change value s
  = match map_get (treeNodeMap s) (JStr elementId) with
    | Some tn => ZoomOnTreeNode tn s
    | None => console_log (not_found_message value) s
    end.
Proof.
  intros H. apply known_element_cases in H as [[-> ->] | [-> ->]].
  - apply on_dropdown_change_echappement.
  - apply on_dropdown_change_catalyseur.
Qed.

Lemma ZoomOnTreeNode_steps (tn : TreeNode) (s : AppState) :
  ZoomOnTreeNode tn s
  = createOrUpdateButton (js_or (URL_DOC tn) JNull)
      (with_cameraViews
         (cameraViews s ++ [{| view_ids := [id (model tn)]; view_transition := true |}])
         (with_selectedObjects [] s)).
Proof.
  unfold ZoomOnTreeNode, bind, clearSelection, setCameraView, update.
  cbv beta iota. now rewrite url_of_node_URL_DOC.
Qed.

(* ================================================================== *)
(** ** The dropdown *)

(** C1.  When the dropdown value names an element and the id written for
    it is a key of the map, the handler leaves the selection empty and has
    asked the camera for one more view: the list holding the model id of
    the node under that key, with the transition flag set. *)
Theorem known_element_zooms value elementId (tn : TreeNode) (s : AppState) :
  known_element value = Some elementId ->
  map_get (treeNodeMap s) (JStr elementId) = Some tn ->
  let s' := snd (on_dropdown_change value s) in
  selectedObjects s' = []
  /\ cameraViews s'
     = cameraViews s ++ [{| view_ids := [id (model tn)]; view_transition := true |}].
Proof.
  intros Hk Hm. cbv zeta.
  rewrite (@on_dropdown_change_known value elementId s Hk), Hm, ZoomOnTreeNode_steps.
  destruct (createOrUpdateButton_frame (js_or (URL_DOC tn) JNull)
              (with_cameraViews
                 (cameraViews s ++ [{| view_ids := [id (model tn)]; view_transition := true |}])
                 (with_selectedObjects [] s))) as (Hs & Hc & _).
  now rewrite Hs, Hc.
Qed.

(** C5.  When the id written for the chosen element is not a key of the
    map, the handler completes having only appended its message to the
    console: selection, camera, section tool, panel and [btnUrlDoc] are
    as they were. *)
Theorem missing_node_only_logs value elementId (s : AppState) :
  known_element value = Some elementId ->
  map_get (treeNodeMap s) (JStr elementId) = None ->
  let s' := snd (on_dropdown_change value s) in
  on_dropdown_change value s
  = (Normal tt, with_console (console s ++ [not_found_message value]) s)
  /\ console s' = console s ++ [not_found_message value]
  /\ selectedObjects s' = selectedObjects s
  /\ cameraViews s' = cameraViews s
  /\ sections s' = sections s
  /\ sectionEnabled s' = sectionEnabled s
  /\ pane s' = pane s
  /\ btnUrlDoc s' = btnUrlDoc s
  /\ windows s' = windows s.
Proof.
  intros Hk Hm. cbv zeta.
  rewrite (@on_dropdown_change_known value elementId s Hk), Hm.
  unfold console_log, update. cbn. repeat split; reflexivity.
Qed.

Example demo_main :
  main demo_env
  = ([Spin true; NewViewer true; Begin ViewerInit; Resume ViewerInit;
      CreateExtension Ext.CameraController; CreateExtension Ext.MeasurementsExtension;
      CreateExtension Ext.SelectionExtension; CreateExtension Ext.SectionTool;
      CreateExtension Ext.SectionOutlines;
      Begin GetResourceUrls; Resume GetResourceUrls;
      Begin (LoadObject (utf16 "https://host/objects/a"));
      Resume (LoadObject (utf16 "https://host/objects/a"));
      Begin (LoadObject (utf16 "https://host/objects/b"));
      Resume (LoadObject (utf16 "https://host/objects/b"));
      SpinnerStop],
     Done demo_state).
Proof. vm_compute. reflexivity. Qed.

Lemma known_element_zooms_witness :
  let s' := snd (on_dropdown_change (utf16 "echappement") demo_state) in
  selectedObjects s' = []
  /\ cameraViews s'
     = cameraViews demo_state
       ++ [{| view_ids := [utf16 "e1"]; view_transition := true |}].
Proof.
  apply (@known_element_zooms (utf16 "echappement") id_echappement
           exhaust_node demo_state).
  - vm_compute. reflexivity.
  - vm_compute. reflexivity.
Defined.

Lemma missing_node_only_logs_witness :
  on_dropdown_change (utf16 "catalyseur") demo_state
  = (Normal tt,
     with_console (console demo_state ++ [not_found_message (utf16 "catalyseur")])
       demo_state).
Proof.
  refine (proj1 (@missing_node_only_logs (utf16 "catalyseur") id_catalyseur
                   demo_state _ _)).
  - vm_compute. reflexivity.
  - vm_compute. reflexivity.
Defined.

(** The value 'all' makes no lookup: it resets the camera, puts a
    disabled button, and then goes through the same final test. *)
Example all_resets_the_view :
  let s' := snd (on_dropdown_change (utf16 "all") demo_state) in
  selectedObjects s' = []
  /\ cameraViews s' = [{| view_ids := []; view_transition := false |}]
  /\ pane_lookup (pane s') 3 = Some (Button (doc_button true) None)
  /\ console s' = [not_found_message (utf16 "all")].
Proof. vm_compute. repeat split. Qed.

(* ================================================================== *)
(** ** Clicks in the scene *)

(** C10.  An [ObjectClicked] event that is null, or whose [hits] is null
    or undefined, makes the handler return at once: the state is the same
    in every component. *)
Theorem click_without_hits_changes_nothing (s : AppState) :
  on_object_clicked None s = (Normal tt, s)
  /\ on_object_clicked (Some {| hits := None |}) s = (Normal tt, s).
Proof. split; reflexivity. Qed.

(* ================================================================== *)
(** ** The documentation button *)

Lemma on_click_last (bs : list (N * Blade)) (fresh : N) bp cb :
  (forall r b, In (r, b) bs -> (r < fresh)%N) ->
  map (fun rb : N * Blade =>
         match rb with
         | (r', Button bp' _) =>
             if N.eqb r' fresh then (r', Button bp' (Some cb)) else rb
         | _ => rb
         end) (bs ++ [(fresh, Button bp None)])
  = bs ++ [(fresh, Button bp (Some cb))].
Proof.
  intros Hbs. rewrite map_app. simpl. rewrite N.eqb_refl. f_equal.
  induction bs as [|[r b] bs IH]; simpl; auto.
  rewrite IH by (intros; eapply Hbs; right; eauto).
  assert (Hr : (r < fresh)%N) by (eapply Hbs; left; eauto).
  destruct b; auto.
  destruct (N.eqb r fresh) eqn:E; auto.
  apply N.eqb_eq in E. lia.
Qed.

Lemma filter_older (bs : list (N * Blade)) (f : N * Blade -> bool) (fresh : N) :
  (forall r b, In (r, b) bs -> (r < fresh)%N) ->
  forall r b, In (r, b) (filter f bs) -> (r < fresh)%N.
Proof.
  intros H r b Hin. apply filter_In in Hin as [Hin _]. eauto.
Qed.

(** The three ways a call ends.  A falsy argument gives a disabled
    button, a string gives an enabled one unless it is blank, and a truthy
    value that is not a string raises once the old button is gone. *)
Lemma createOrUpdateButton_falsy (u : JSValue) (s : AppState) :
  truthy u = false ->
  createOrUpdateButton u s = (Normal tt, recreated true None s).
Proof.
  intros Hu. unfold createOrUpdateButton, recreated. run_handler. rewrite Hu.
  destruct (btnUrlDoc s); reflexivity.
Qed.

Lemma createOrUpdateButton_string (t : jsstring) (s : AppState) :
  references_fresh s ->
  createOrUpdateButton (JStr t) s
  = (Normal tt,
     if jsstring_eqb (trim t) [] then recreated true None s
     else recreated false (Some (OpenWindow (JStr t))) s).
Proof.
  intros [Hfresh _].
  destruct t as [|c t'].
  { now rewrite createOrUpdateButton_falsy. }
  unfold createOrUpdateButton, recreated. run_handler.
  destruct (jsstring_eqb (trim (c :: t')) []) eqn:E.
  - destruct (btnUrlDoc s); reflexivity.
  - destruct (btnUrlDoc s) as [old|]; cbn;
      unfold pane_on_click, with_btnUrlDoc, with_pane; cbn;
      rewrite on_click_last; auto.
    now apply filter_older.
Qed.

Lemma createOrUpdateButton_raises (u : JSValue) (s : AppState) :
  truthy u = true -> (forall t, u <> JStr t) ->
  exists e, createOrUpdateButton u s = (Throw e, removed s).
Proof.
  intros Hu Hstr. unfold createOrUpdateButton, removed. run_handler. rewrite Hu.
  destruct u; try discriminate; try (now destruct (Hstr s0));
    (destruct (btnUrlDoc s); cbn; eexists; reflexivity).
Qed.

Lemma on_object_clicked_hit (n : TreeNode) (others : list Hit) (s : AppState) :
  on_object_clicked (Some {| hits := Some ({| node := n |} :: others) |}) s
  = createOrUpdateButton (js_or (URL_DOC n) JNull) s.
Proof.
  unfold on_object_clicked, bind. cbn [hits node].
  now rewrite url_of_node_URL_DOC.
Qed.

Lemma blades_lookup_last (bs : list (N * Blade)) (fresh : N) (b : Blade) :
  (forall r b', In (r, b') bs -> (r < fresh)%N) ->
  blades_lookup (bs ++ [(fresh, b)]) fresh = Some b.
Proof.
  intros Hbs. induction bs as [|[r b'] bs IH]; simpl.
  - now rewrite N.eqb_refl.
  - assert (Hr : (r < fresh)%N) by (eapply Hbs; left; eauto).
    destruct (N.eqb r fresh) eqn:E; [apply N.eqb_eq in E; lia|].
    apply IH. intros; eapply Hbs; right; eauto.
Qed.

Lemma initial_pane_references :
  map fst (blades initial_pane) = [0%N; 1%N; 2%N].
Proof. reflexivity. Qed.

Lemma initial_state_fresh (env : Environment) (m : JSMap TreeNode) :
  references_fresh (initial_state env m).
Proof.
  split; [|discriminate].
  intros r b Hin. apply (in_map fst) in Hin.
  change (In r (map fst (blades initial_pane))) in Hin.
  rewrite initial_pane_references in Hin.
  change (next_ref (pane (initial_state env m))) with 3%N.
  simpl in Hin. lia.
Qed.

(** C2 does not hold of every hit node: on the part whose URL_DOC is
    the number 42 the handler raises, and no button is put back. *)
Lemma click_on_numbered_node_raises :
  ~ click_sets_button demo_state numbered_node [].
Proof.
  unfold click_sets_button. vm_compute. discriminate.
Qed.

(** C2, amended.  On a click that hits a node whose URL_DOC, when truthy,
    is a string: if the raw properties hold a 'Données utilisateur'
    object with a URL_DOC string that is not empty once trimmed, the
    documentation button is re-created enabled, and a click on it opens
    that very URL in a new tab; otherwise it is re-created disabled. *)
Theorem click_sets_button_for_text (s : AppState) (n : TreeNode) (others : list Hit) :
  references_fresh s ->
  (truthy (URL_DOC n) = true -> exists t, URL_DOC n = JStr t) ->
  click_sets_button s n others
  /\ forall url, documentation_url n = Some url ->
       let s' := recreated false (Some (OpenWindow (JStr url))) s in
       on_click (next_ref (pane s)) s'
       = (Normal tt, with_windows (windows s ++ [(JStr url, utf16 "_blank")]) s').
Proof.
  intros Hfresh Htext. split.
  - unfold click_sets_button, documentation_url.
    rewrite on_object_clicked_hit. unfold js_or.
    destruct (truthy (URL_DOC n)) eqn:Hu.
    + destruct (Htext eq_refl) as [t Ht]. rewrite Ht.
      rewrite createOrUpdateButton_string by assumption.
      now destruct (jsstring_eqb (trim t) []).
    + rewrite createOrUpdateButton_falsy by reflexivity.
      destruct (URL_DOC n) as [| |b|x|t|r fs|r xs]; try reflexivity.
      destruct t; [reflexivity | discriminate].
  - intros url _. cbv zeta. unfold on_click, bind, read, recreated, pane_lookup.
    cbn [pane with_btnUrlDoc with_pane blades].
    rewrite blades_lookup_last.
    + reflexivity.
    + destruct Hfresh as [Hfresh _].
      destruct (btnUrlDoc s); [now apply filter_older | exact Hfresh].
Qed.

Lemma click_sets_button_for_text_witness :
  click_sets_button demo_state exhaust_node [].
Proof.
  refine (proj1 (@click_sets_button_for_text demo_state exhaust_node [] _ _)).
  - apply initial_state_fresh.
  - intros _. exists exhaust_url. vm_compute. reflexivity.
Defined.

Example click_on_exhaust :
  let s' := snd (on_object_clicked
                   (Some {| hits := Some [{| node := exhaust_node |}] |}) demo_state) in
  btnUrlDoc s' = Some 3%N
  /\ pane_lookup (pane s') 3
     = Some (Button (doc_button false) (Some (OpenWindow (JStr exhaust_url))))
  /\ windows (snd (on_click 3 s')) = [(JStr exhaust_url, utf16 "_blank")].
Proof. vm_compute. repeat split. Qed.

Example click_on_plain :
  let s' := snd (on_object_clicked
                   (Some {| hits := Some [{| node := plain_node |}] |}) demo_state) in
  btnUrlDoc s' = Some 3%N
  /\ pane_lookup (pane s') 3 = Some (Button (doc_button true) None).
Proof. vm_compute. repeat split. Qed.

Example click_on_numbered :
  on_object_clicked (Some {| hits := Some [{| node := numbered_node |}] |}) demo_state
  = (Throw (TypeError "trim is not a function"), demo_state).
Proof. vm_compute. reflexivity. Qed.

(* ================================================================== *)
(** ** One documentation button *)

Lemma filter_none {A} (f : A -> bool) (l : list A) :
  (forall a, In a l -> f a = false) -> filter f l = [].
Proof.
  induction l as [|x l IH]; intros H; simpl; auto.
  rewrite (H x) by now left. apply IH. intros; apply H; now right.
Qed.

Lemma NoDup_references_filter (f : N * Blade -> bool) (l : list (N * Blade)) :
  NoDup (map fst l) -> NoDup (map fst (filter f l)).
Proof.
  induction l as [|x l IH]; simpl; intros H; auto.
  apply NoDup_cons_iff in H as [Hx Hl].
  destruct (f x); simpl; auto.
  constructor; auto.
  intros Hin. apply Hx. apply in_map_iff in Hin as (y & Hy & Hin).
  apply filter_In in Hin as [Hin _]. apply in_map_iff; eauto.
Qed.

Lemma kept_older (s : AppState) :
  references_fresh s ->
  forall r b, In (r, b) (kept s) -> (r < next_ref (pane s))%N.
Proof.
  intros [Hfresh _]. unfold kept.
  destruct (btnUrlDoc s); [now apply filter_older | exact Hfresh].
Qed.

Lemma kept_without_old (s : AppState) (old : N) :
  btnUrlDoc s = Some old -> ~ In old (map fst (kept s)).
Proof.
  intros Hold Hin. unfold kept in Hin. rewrite Hold in Hin.
  apply in_map_iff in Hin as ([r b] & Hr & Hin). simpl in Hr; subst r.
  apply filter_In in Hin as [_ Hne]. simpl in Hne.
  now rewrite N.eqb_refl in Hne.
Qed.

Lemma kept_NoDup (s : AppState) :
  NoDup (map fst (blades (pane s))) -> NoDup (map fst (kept s)).
Proof.
  unfold kept. destruct (btnUrlDoc s); auto using NoDup_references_filter.
Qed.

(** Once the old button is out, no documentation button is left. *)
Lemma kept_no_doc_button (s : AppState) :
  button_invariant s ->
  filter (fun rb => is_doc_button (snd rb)) (kept s) = [].
Proof.
  intros (_ & _ & Hdoc). apply filter_none. intros [r b] Hin. simpl.
  destruct (is_doc_button b) eqn:Eb; auto. exfalso.
  assert (Hr : In r (doc_buttons (pane s))).
  { unfold doc_buttons. apply in_map_iff. exists (r, b). split; auto.
    apply filter_In. split; auto.
    unfold kept in Hin. destruct (btnUrlDoc s); auto.
    now apply filter_In in Hin. }
  pose proof (Hdoc r Hr) as Hold.
  apply (kept_without_old s Hold). apply in_map_iff. now exists (r, b).
Qed.

Lemma doc_button_is_doc (d : bool) (cb : option ClickCallback) :
  is_doc_button (Button (doc_button d) cb) = true.
Proof. reflexivity. Qed.

Lemma recreated_shape d cb (s : AppState) :
  pane (recreated d cb s)
  = {| next_ref := next_ref (pane s) + 1;
       blades := kept s ++ [(next_ref (pane s), Button (doc_button d) cb)] |}
  /\ btnUrlDoc (recreated d cb s) = Some (next_ref (pane s)).
Proof. split; reflexivity. Qed.

Lemma recreated_invariant d cb (s : AppState) :
  button_invariant s ->
  button_invariant (recreated d cb s)
  /\ doc_buttons (pane (recreated d cb s)) = [next_ref (pane s)].
Proof.
  intros Hinv. pose proof Hinv as (Hfresh & Hnd & Hdoc).
  destruct (recreated_shape d cb s) as [Hp Hb].
  assert (Hdocs : doc_buttons (pane (recreated d cb s)) = [next_ref (pane s)]).
  { rewrite Hp. unfold doc_buttons. cbn [blades].
    rewrite filter_app, (kept_no_doc_button Hinv). cbn [filter snd].
    now rewrite doc_button_is_doc. }
  split; [|exact Hdocs].
  split; [|split].
  - split.
    + intros r b Hin. rewrite Hp in *. cbn [blades next_ref] in *.
      apply in_app_or in Hin as [Hin | [[= <- _] | []]]; [|lia].
      pose proof (kept_older Hfresh _ _ Hin). lia.
    + intros r Hr. rewrite Hb in Hr. rewrite Hp. cbn [next_ref].
      injection Hr as <-. lia.
  - rewrite Hp. cbn [blades]. rewrite map_app. apply NoDup_app.
    + now apply kept_NoDup.
    + simpl. constructor; [easy | constructor].
    + intros a Ha [<- | []].
      apply in_map_iff in Ha as ([r b] & Hr & Hin). simpl in Hr; subst r.
      pose proof (kept_older Hfresh _ _ Hin). lia.
  - intros r Hr. rewrite Hdocs in Hr. destruct Hr as [<- | []]. exact Hb.
Qed.

Lemma removed_shape (s : AppState) :
  pane (removed s) = {| next_ref := next_ref (pane s); blades := kept s |}
  /\ btnUrlDoc (removed s) = btnUrlDoc s.
Proof.
  unfold removed, kept. destruct (btnUrlDoc s) eqn:E; cbn.
  - now rewrite E.
  - rewrite E. now destruct (pane s).
Qed.

Lemma removed_invariant (s : AppState) :
  button_invariant s ->
  button_invariant (removed s) /\ doc_buttons (pane (removed s)) = [].
Proof.
  intros Hinv. pose proof Hinv as (Hfresh & Hnd & Hdoc).
  destruct (removed_shape s) as [Hp Hb].
  assert (Hdocs : doc_buttons (pane (removed s)) = []).
  { rewrite Hp. unfold doc_buttons. cbn [blades].
    now rewrite (kept_no_doc_button Hinv). }
  split; [|exact Hdocs].
  split; [|split].
  - split.
    + intros r b Hin. rewrite Hp in *. cbn [blades next_ref] in *.
      exact (kept_older Hfresh _ _ Hin).
    + intros r Hr. rewrite Hb in Hr. rewrite Hp. cbn [next_ref].
      now apply Hfresh.
  - rewrite Hp. cbn [blades]. now apply kept_NoDup.
  - intros r Hr. rewrite Hdocs in Hr. destruct Hr.
Qed.

(** Every call ends in one of two states. *)
Lemma createOrUpdateButton_outcome (u : JSValue) (s : AppState) :
  references_fresh s ->
  (exists d cb, createOrUpdateButton u s = (Normal tt, recreated d cb s))
  \/ (exists e, createOrUpdateButton u s = (Throw e, removed s)).
Proof.
  intros Hfresh.
  destruct (truthy u) eqn:Hu.
  - destruct u as [| |b|x|t|r fs|r xs];
      try (right; apply createOrUpdateButton_raises; [exact Hu | discriminate]).
    left. rewrite createOrUpdateButton_string by assumption.
    destruct (jsstring_eqb (trim t) []); eauto.
  - left. rewrite createOrUpdateButton_falsy by assumption. eauto.
Qed.

Lemma button_invariant_same (s s' : AppState) :
  pane s' = pane s -> btnUrlDoc s' = btnUrlDoc s ->
  button_invariant s -> button_invariant s'.
Proof.
  unfold button_invariant, references_fresh. now intros -> ->.
Qed.

Lemma createOrUpdateButton_invariant (u : JSValue) (s : AppState) :
  button_invariant s -> button_invariant (snd (createOrUpdateButton u s)).
Proof.
  intros Hinv.
  destruct (createOrUpdateButton_outcome u (proj1 Hinv))
    as [(d & cb & ->) | (e & ->)]; simpl.
  - now apply recreated_invariant.
  - now apply removed_invariant.
Qed.

Lemma ZoomOnTreeNode_invariant (tn : TreeNode) (s : AppState) :
  button_invariant s -> button_invariant (snd (ZoomOnTreeNode tn s)).
Proof.
  intros Hinv. rewrite ZoomOnTreeNode_steps.
  apply createOrUpdateButton_invariant.
  revert Hinv. now apply button_invariant_same.
Qed.

Lemma on_dropdown_change_invariant (value : jsstring) (s : AppState) :
  button_invariant s -> button_invariant (snd (on_dropdown_change value s)).
Proof.
  intros Hinv. unfold on_dropdown_change.
  destruct (jsstring_eqb value (utf16 "all")).
  - unfold bind, clearSelection, setCameraView, update, ret. cbv beta iota.
    rewrite createOrUpdateButton_falsy by reflexivity.
    unfold console_log, update. cbn [snd].
    eapply button_invariant_same; [| |apply recreated_invariant]; try reflexivity.
    revert Hinv. now apply button_invariant_same.
  - assert (Hnone :
      button_invariant (snd (console_log (not_found_message value) s)))
      by (revert Hinv; now apply button_invariant_same).
    destruct (jsstring_eqb value (utf16 "echappement")).
    + unfold bind at 1, read.
      destruct (map_get (treeNodeMap s) (JStr id_echappement));
        auto using ZoomOnTreeNode_invariant.
    + destruct (jsstring_eqb value (utf16 "catalyseur")).
      * unfold bind at 1, read.
        destruct (map_get (treeNodeMap s) (JStr id_catalyseur));
          auto using ZoomOnTreeNode_invariant.
      * exact Hnone.
Qed.

Lemma on_object_clicked_invariant ev (s : AppState) :
  button_invariant s -> button_invariant (snd (on_object_clicked ev s)).
Proof.
  intros Hinv. destruct ev as [[[[|[n] others]|]]|]; try exact Hinv.
  rewrite on_object_clicked_hit. now apply createOrUpdateButton_invariant.
Qed.

Lemma on_click_invariant (r : N) (s : AppState) :
  button_invariant s -> button_invariant (snd (on_click r s)).
Proof.
  intros Hinv. unfold on_click, bind, read.
  destruct (pane_lookup (pane s) r) as [[bp [cb|]|]|]; try exact Hinv.
  destruct (disabled bp); [exact Hinv|].
  destruct cb; revert Hinv; now apply button_invariant_same.
Qed.

Lemma handle_invariant (e : Event) (s : AppState) :
  button_invariant s -> button_invariant (snd (handle e s)).
Proof.
  destruct e; simpl.
  - apply on_dropdown_change_invariant.
  - apply on_object_clicked_invariant.
  - apply on_click_invariant.
  - now apply button_invariant_same.
Qed.


Lemma initial_state_invariant (env : Environment) (m : JSMap TreeNode) :
  button_invariant (initial_state env m).
Proof.
  split; [apply initial_state_fresh|]. split.
  - change (NoDup (map fst (blades initial_pane))).
    rewrite initial_pane_references.
    repeat constructor; simpl; intuition discriminate.
  - intros r Hr. exfalso. revert Hr.
    change (doc_buttons (pane (initial_state env m))) with (@nil N). easy.
Qed.

(** What [main] resolves to is the initial state over the scanned map. *)
Lemma main_done (env : Environment) t (s0 : AppState) :
  main env = (t, Done s0) ->
  exists m, build_treeNodeMap (worldTree env) = Normal m /\ s0 = initial_state env m.
Proof.
  unfold main, abind, call, await, aret.
  destruct (Spinner_spin env (has_spinner env)); [|discriminate].
  destruct (Viewer_new env (has_renderer env)); [|discriminate].
  destruct (viewer_init env); try discriminate.
  destruct (getResourceUrls env) as [urls| |]; try discriminate.
  destruct (load_all env urls) as [t1 [[]| |]]; try discriminate.
  destruct (has_loading_spinner env);
    (destruct (build_treeNodeMap (worldTree env)) as [m|]; [|discriminate]);
    intros H; exists m; split; congruence.
Qed.


Lemma demo_reachable (events : list Event) : reachable (after events demo_state).
Proof.
  eexists demo_env, _, demo_state, events. split; [exact demo_main | reflexivity].
Qed.


Example stale_reference_state :
  let s := after [click_on exhaust_node; click_on numbered_node] demo_state in
  btnUrlDoc s = Some 3%N /\ doc_buttons (pane s) = [] /\ pane_lookup (pane s) 3 = None.
Proof. vm_compute. repeat split. Qed.




(* ================================================================== *)
(** ** Start-up *)

Lemma begun_app (t1 t2 : list Step) : begun (t1 ++ t2) = begun t1 ++ begun t2.
Proof.
  induction t1 as [|[] t1 IH]; simpl; auto. now rewrite IH.
Qed.

Lemma disciplined_aret (env : Environment) {A} (a : A) : disciplined env (aret a).
Proof. repeat split; try easy; intros op []. Qed.

Lemma disciplined_call (env : Environment) {A} (s : Step) (c : Completion A) :
  (forall op, s <> Begin op) -> (forall op, s <> Resume op) ->
  disciplined env (call s c).
Proof.
  intros Hb Hr.
  assert (Hs : match s with Begin _ | Resume _ => False | _ => True end).
  { destruct s; auto; [eapply Hb | eapply Hr]; reflexivity. }
  unfold disciplined, call.
  destruct s; try easy; destruct c; cbn; repeat split; try easy.
  all: try (intros ? [Heq | []]; discriminate).
  all: match goal with
       | Heq : _ \/ False |- _ => destruct Heq as [Heq | []]; discriminate Heq
       end.
Qed.

Lemma disciplined_await (env : Environment) {A} (op : AsyncOp) (p : Settled A) :
  settles env op = outcome p -> disciplined env (await op p).
Proof.
  intros Hp. unfold disciplined, await.
  destruct p as [a|e|]; cbn in *; (split; [|split; [|split]]); try discriminate.
  - intros _ _ rest. destruct op; auto. now rewrite jsstring_eqb_refl.
  - destruct op; auto. now rewrite jsstring_eqb_refl.
  - intros op' [[=] | [[= <-] | []]]. exact Hp.
  - intros op' [[= <-] | [[=] | []]]. rewrite Hp. split; [intros e|]; discriminate.
  - reflexivity.
  - intros op' [[=] | []].
  - intros op' [[= <-] | []]. rewrite Hp.
    split; [intros e' [= ->]; reflexivity | discriminate].
  - reflexivity.
  - intros op' [[=] | []].
  - intros op' [[= <-] | []]. rewrite Hp. split; [intros e'; discriminate | reflexivity].
Qed.

Lemma disciplined_abind (env : Environment) {A B} (m : Async A) (k : A -> Async B) :
  disciplined env m -> (forall a, disciplined env (k a)) ->
  disciplined env (abind m k).
Proof.
  intros (Hclosed & Hone & Hres & Hbeg) Hk.
  destruct m as [t1 [a| e |]]; cbn in *.
  - specialize (Hk a). destruct Hk as (Hclosed2 & Hone2 & Hres2 & Hbeg2).
    specialize (Hclosed a eq_refl).
    destruct (k a) as [t2 r2]; cbn in *.
    unfold disciplined; cbn [fst snd].
    split; [|split; [|split]].
    + intros b Hb rest. rewrite <- app_assoc, Hclosed. eauto.
    + now rewrite Hclosed.
    + intros op Hin. apply in_app_or in Hin as [Hin | Hin]; auto.
    + intros op Hin. apply in_app_or in Hin as [Hin | Hin]; auto.
      destruct (Hbeg op Hin) as [Hrej Hnev].
      split; [intros e He; discriminate (Hrej e He) | intros He; discriminate (Hnev He)].
  - split; [discriminate|]. split; [exact Hone|]. split; [exact Hres|].
    intros op Hin. destruct (Hbeg op Hin) as [Hrej Hnev].
    split; [intros e' He; now injection (Hrej e' He) as -> | intros He; discriminate (Hnev He)].
  - split; [discriminate|]. split; [exact Hone|]. split; [exact Hres|].
    intros op Hin. destruct (Hbeg op Hin) as [Hrej Hnev].
    split; [intros e' He; discriminate (Hrej e' He) | reflexivity].
Qed.

Lemma disciplined_load_all (env : Environment) (urls : list jsstring) :
  disciplined env (load_all env urls).
Proof.
  induction urls as [|url urls IH]; cbn [load_all].
  - apply disciplined_aret.
  - apply disciplined_abind; auto.
    apply disciplined_await. cbn. now destruct (loadObject env url) as [[]| |].
Qed.

Lemma disciplined_main (env : Environment) : disciplined env (main env).
Proof.
  unfold main.
  repeat (apply disciplined_abind; [|intros ?]);
    try (apply disciplined_call; discriminate).
  - apply disciplined_await. cbn. now destruct (viewer_init env) as [[]| |].
  - apply disciplined_await. reflexivity.
  - apply disciplined_load_all.
  - destruct (has_loading_spinner env);
      [apply disciplined_call; discriminate | apply disciplined_aret].
  - rewrite build_treeNodeMap_normal. apply disciplined_aret.
  - apply disciplined_aret.
Qed.

(** What the loop begins: the loads of an initial part of the list, of
    the whole list when it completes. *)
Lemma load_all_begun (env : Environment) (urls : list jsstring) :
  (exists later, begun (fst (load_all env urls)) ++ later = map LoadObject urls)
  /\ (snd (load_all env urls) = Done tt ->
      begun (fst (load_all env urls)) = map LoadObject urls).
Proof.
  induction urls as [|url urls ((later & Hpre) & Hdone)]; cbn.
  - split; [now exists [] | reflexivity].
  - unfold await, abind.
    destruct (loadObject env url) as [[]|e|]; cbn.
    + destruct (load_all env urls) as [t r]; cbn in *.
      split; [exists later; now rewrite Hpre | intros Hr; now rewrite Hdone].
    + split; [eexists; reflexivity | discriminate].
    + split; [eexists; reflexivity | discriminate].
Qed.

Lemma main_begun (env : Environment) :
  (exists later, begun (fst (main env)) ++ later = startup_order (resolved_urls env))
  /\ (forall s0, snd (main env) = Done s0 ->
        begun (fst (main env)) = startup_order (resolved_urls env)).
Proof.
  unfold main, resolved_urls, startup_order, abind, call, await, aret.
  destruct (Spinner_spin env (has_spinner env)) as [[]|e0]; cbn;
    [|split; [eexists; reflexivity | discriminate]].
  destruct (Viewer_new env (has_renderer env)) as [[]|e0]; cbn;
    [|split; [eexists; reflexivity | discriminate]].
  destruct (viewer_init env) as [[]|e0|]; cbn;
    [|split; [eexists; reflexivity | discriminate] ..].
  destruct (getResourceUrls env) as [urls|e0|]; cbn;
    [|split; [eexists; reflexivity | discriminate] ..].
  destruct (load_all_begun env urls) as ((later & Hpre) & Hdone).
  rewrite build_treeNodeMap_normal.
  destruct (has_loading_spinner env);
    (destruct (load_all env urls) as [tl [[]|e0|]]; cbn in *;
     [|split; [exists later; now rewrite Hpre | discriminate] ..]);
    rewrite begun_app, (Hdone eq_refl); cbn; rewrite app_nil_r;
    (split; [exists []; now rewrite app_nil_r | reflexivity]).
Qed.

Lemma load_all_steps (env : Environment) (urls : list jsstring) (st : Step) :
  In st (fst (load_all env urls)) ->
  exists url, st = Begin (LoadObject url) \/ st = Resume (LoadObject url).
Proof.
  induction urls as [|url urls IH]; cbn; [easy|].
  unfold await, abind.
  destruct (loadObject env url) as [[]|e|]; cbn.
  - destruct (load_all env urls) as [t r]; cbn in *.
    intros [<- | [<- | Hin]]; eauto.
  - intros [<- | []]; eauto.
  - intros [<- | []]; eauto.
Qed.

Lemma load_all_done_iff (env : Environment) (urls : list jsstring) :
  snd (load_all env urls) = Done tt
  <-> forall url, In url urls -> loadObject env url = Fulfills tt.
Proof.
  induction urls as [|url urls IH]; cbn.
  - split; [intros _ u [] | reflexivity].
  - unfold await, abind.
    destruct (loadObject env url) as [[]|e|] eqn:El; cbn.
    + destruct (load_all env urls) as [t r]; cbn in *. rewrite IH.
      split; [intros H u [<- | Hu]; auto | intros H u Hu; apply H; now right].
    + split; [discriminate | intros H].
      specialize (H url (or_introl eq_refl)). congruence.
    + split; [discriminate | intros H].
      specialize (H url (or_introl eq_refl)). congruence.
Qed.

Lemma fulfilled_load (env : Environment) (url : jsstring) :
  fulfilled env (LoadObject url)
  = match loadObject env url with Fulfills _ => true | _ => false end.
Proof. reflexivity. Qed.

Lemma load_all_begun_exact (env : Environment) (urls : list jsstring) :
  begun (fst (load_all env urls)) = until_unfulfilled env (map LoadObject urls)
  /\ filter is_await (fst (load_all env urls))
     = awaited env (begun (fst (load_all env urls))).
Proof.
  induction urls as [|url urls [IHb IHa]]; [now split|].
  cbn [load_all map until_unfulfilled]. rewrite fulfilled_load.
  unfold await, abind, awaited in *.
  destruct (loadObject env url) as [[]|e|] eqn:El.
  - destruct (load_all env urls) as [t r]. cbn [fst snd app begun filter is_await] in *.
    cbn [flat_map]. rewrite fulfilled_load, El, IHa, IHb. split; reflexivity.
  - cbn [fst begun filter is_await flat_map]. rewrite fulfilled_load, El.
    split; reflexivity.
  - cbn [fst begun filter is_await flat_map]. rewrite fulfilled_load, El.
    split; reflexivity.
Qed.

Lemma fulfilled_all_loads (env : Environment) (urls : list jsstring) :
  (forall op, In op (map LoadObject urls) -> fulfilled env op = true) ->
  forall url, In url urls -> loadObject env url = Fulfills tt.
Proof.
  intros H url Hin. specialize (H (LoadObject url) (in_map _ _ _ Hin)).
  unfold fulfilled in H. cbn in H. now destruct (loadObject env url) as [[]| |].
Qed.

Lemma fulfilled_init (env : Environment) :
  fulfilled env ViewerInit
  = match viewer_init env with Fulfills _ => true | _ => false end.
Proof. reflexivity. Qed.

Lemma fulfilled_urls (env : Environment) :
  fulfilled env GetResourceUrls
  = match getResourceUrls env with Fulfills _ => true | _ => false end.
Proof. unfold fulfilled. cbn. now destruct (getResourceUrls env). Qed.

(** What a run begins, and its awaits, in full. *)
Lemma main_begun_exact (env : Environment) :
  begun (fst (main env))
  = (if constructed env
     then until_unfulfilled env (startup_order (resolved_urls env)) else [])
  /\ filter is_await (fst (main env)) = awaited env (begun (fst (main env)))
  /\ (constructed env = true ->
      (forall op, In op (startup_order (resolved_urls env)) -> fulfilled env op = true) ->
      exists s0, snd (main env) = Done s0).
Proof.
  unfold main, constructed, resolved_urls, startup_order, abind, call, await, aret.
  destruct (Spinner_spin env (has_spinner env)) as [[]|e0]; cbn;
    [|repeat split; discriminate].
  destruct (Viewer_new env (has_renderer env)) as [[]|e0]; cbn;
    [|repeat split; discriminate].
  unfold awaited.
  destruct (viewer_init env) as [[]|e0|] eqn:Ei; cbn;
    rewrite ?fulfilled_init, ?Ei.
  2,3: (split; [reflexivity|]); (split; [reflexivity|]);
       intros _ H; specialize (H ViewerInit (or_introl eq_refl));
       rewrite fulfilled_init, Ei in H; discriminate.
  destruct (getResourceUrls env) as [urls|e0|] eqn:Eu; cbn;
    rewrite ?fulfilled_init, ?fulfilled_urls, ?Ei, ?Eu.
  2,3: (split; [reflexivity|]); (split; [reflexivity|]);
       intros _ H; specialize (H GetResourceUrls (or_intror (or_introl eq_refl)));
       rewrite fulfilled_urls, Eu in H; discriminate.
  destruct (load_all_begun_exact env urls) as [Hb Ha].
  pose proof (load_all_done_iff env urls) as Hdone.
  pose proof (fulfilled_all_loads env urls) as Hloads.
  rewrite build_treeNodeMap_normal. unfold awaited in Ha.
  destruct (load_all env urls) as [tl [[]|e0|]]; cbn in *.
  - destruct (has_loading_spinner env); cbn;
      rewrite !begun_app, !filter_app, Ha; cbn; rewrite ?app_nil_r;
      rewrite ?fulfilled_init, ?fulfilled_urls, ?Ei, ?Eu, Hb;
      (split; [reflexivity|]); (split; [reflexivity|]);
      intros _ _; eexists; reflexivity.
  - rewrite ?app_nil_r, Ha, ?fulfilled_init, ?fulfilled_urls, ?Ei, ?Eu, Hb.
    split; [reflexivity|]. split; [reflexivity|].
    intros _ H. assert (Hd : Rejected e0 = Done tt) by (apply Hdone, Hloads; auto).
    discriminate.
  - rewrite ?app_nil_r, Ha, ?fulfilled_init, ?fulfilled_urls, ?Ei, ?Eu, Hb.
    split; [reflexivity|]. split; [reflexivity|].
    intros _ H. assert (Hd : @Suspended unit = Done tt) by (apply Hdone, Hloads; auto).
    discriminate.
Qed.

(** C6.  In every run of [main] the awaited operations go one at a time:
    each is resumed from before any other step happens.  Once the two
    constructors have returned, the run begins viewer initialisation,
    then, when that is fulfilled, the resolution of the URLs, then, when
    that is fulfilled, one load per resolved URL in list order, each when
    the one before is fulfilled: what it begins is exactly this order up
    to and with the first promise that is not fulfilled, and its awaits
    are exactly those, each resumed from when fulfilled.  When all are
    fulfilled the run completes.  [main] resumes only from a fulfilled
    promise; a promise that rejects rejects [main], and one that never
    settles leaves [main] waiting: nothing cancels a step or times it
    out. *)
Theorem startup_awaits_in_order (env : Environment) :
  let t := fst (main env) in
  let r := snd (main env) in
  one_at_a_time t = true
  /\ (exists later, begun t ++ later = startup_order (resolved_urls env))
  /\ (forall s0, r = Done s0 -> begun t = startup_order (resolved_urls env))
  /\ (forall op, In (Resume op) t -> settles env op = Fulfills tt)
  /\ (forall op, In (Begin op) t ->
        (forall e, settles env op = Rejects e -> r = Rejected e)
        /\ (settles env op = NeverSettles -> r = Suspended))
  /\ begun t
     = (if constructed env
        then until_unfulfilled env (startup_order (resolved_urls env)) else [])
  /\ filter is_await t = awaited env (begun t)
  /\ (constructed env = true ->
      (forall op, In op (startup_order (resolved_urls env)) -> fulfilled env op = true) ->
      exists s0, r = Done s0).
Proof.
  cbv zeta.
  destruct (disciplined_main env) as (_ & Hone & Hres & Hbeg).
  destruct (main_begun env) as [Hpre Hdone].
  destruct (main_begun_exact env) as (Hexact & Hawaits & Hcompletes).
  repeat split; auto; now apply Hbeg.
Qed.

Example stalled_main :
  main stalled_env
  = ([Spin true; NewViewer true; Begin ViewerInit; Resume ViewerInit;
      CreateExtension Ext.CameraController; CreateExtension Ext.MeasurementsExtension;
      CreateExtension Ext.SelectionExtension; CreateExtension Ext.SectionTool;
      CreateExtension Ext.SectionOutlines;
      Begin GetResourceUrls; Resume GetResourceUrls;
      Begin (LoadObject (utf16 "https://host/objects/a"))],
     Suspended).
Proof. vm_compute. reflexivity. Qed.





Example main_without_spinner :
  main no_spinner_env
  = (Spin false :: tl (fst (main demo_env)) ++ [HideLoadingDiv],
     Done (initial_state no_spinner_env demo_map)).
Proof. vm_compute. reflexivity. Qed.



(** The one guarded element: without the 'loading-spinner' element the
    run goes on, only the hiding step is skipped. *)
Lemma missing_loading_spinner_is_guarded :
  main demo_env = (fst (main demo_env), Done demo_state)
  /\ ~ In HideLoadingDiv (fst (main demo_env)).
Proof.
  rewrite demo_main. split; [reflexivity|].
  cbn. intuition discriminate.
Qed.

(* ================================================================== *)
(** ** More on the id-to-node map *)

Lemma map_set_distinct {V} (m : JSMap V) k v :
  keys_distinct m -> keys_distinct (map_set m k v).
Proof.
  induction m as [|[k1 v1] r IH]; simpl.
  - auto.
  - intros [Hk1 Hr]. destruct (same_value_zero k1 k) eqn:E; simpl; auto.
    split; auto. rewrite map_get_set, same_value_zero_sym, E. exact Hk1.
Qed.

Lemma map_set_length {V} (m : JSMap V) k v :
  (List.length (map_set m k v) <= S (List.length m))%nat.
Proof.
  induction m as [|[k1 v1] r IH]; simpl; auto.
  destruct (same_value_zero k1 k); simpl; lia.
Qed.

Lemma map_set_entries {V} (m : JSMap V) k v k' v' :
  In (k', v') (map_set m k v) ->
  (k' = k /\ v' = v) \/ (exists v0, In (k', v0) m).
Proof.
  induction m as [|[k1 v1] r IH]; simpl.
  - intros [[= <- <-] | []]. now left.
  - destruct (same_value_zero k1 k); simpl.
    + intros [[= <- <-] | Hin]; right; eauto.
    + intros [[= <- <-] | Hin]; [right; eauto|].
      destruct (IH Hin) as [? | [v0 ?]]; [now left | right; eauto].
Qed.

Lemma set_each_distinct (l : list TreeNode) (m : JSMap TreeNode) :
  keys_distinct m -> keys_distinct (set_each l m).
Proof.
  revert m. induction l as [|n l IH]; intros m Hm; simpl; auto.
  apply IH. now apply map_set_distinct.
Qed.

Lemma set_each_length (l : list TreeNode) (m : JSMap TreeNode) :
  (List.length (set_each l m) <= List.length m + List.length l)%nat.
Proof.
  revert m. induction l as [|n l IH]; intros m; simpl; [lia|].
  specialize (IH (map_set m (id_value n) n)).
  pose proof (map_set_length m (id_value n) n).
  unfold set_each in *. lia.
Qed.

Lemma set_each_keys (l : list TreeNode) (m : JSMap TreeNode) k v :
  In (k, v) (set_each l m) ->
  (exists v0, In (k, v0) m) \/ (exists n, In n l /\ k = id_value n).
Proof.
  revert m. induction l as [|n l IH]; intros m; simpl; [eauto|].
  intros Hin. destruct (IH _ Hin) as [[v0 H0] | (n' & Hn' & ->)].
  - destruct (map_set_entries _ _ _ _ _ H0) as [[-> _] | ?]; eauto.
  - right. eauto.
Qed.

(** The map the scan builds has one entry per id: no two of its keys are
    the same, it has no more entries than the tree has nodes, and each of
    its keys is the truthy id of a scanned node. *)
Theorem treeNodeMap_entries (root : TreeNode) :
  exists m,
    build_treeNodeMap root = Normal m
    /\ keys_distinct m
    /\ (List.length m <= List.length (walk root))%nat
    /\ forall k v, In (k, v) m ->
         truthy k = true
         /\ exists n, In n (walk root) /\ has_truthy_id n = true /\ k = id_value n.
Proof.
  exists (set_each (filter has_truthy_id (walk root)) []).
  split; [apply build_treeNodeMap_normal|]. split; [|split].
  - now apply set_each_distinct.
  - pose proof (set_each_length (filter has_truthy_id (walk root)) []) as H.
    pose proof (filter_length_le has_truthy_id (walk root)). simpl in H. lia.
  - intros k v Hin.
    apply set_each_keys in Hin as [[v0 []] | (n & Hn & ->)].
    apply filter_In in Hn as [Hn Hsel]. split; eauto.
    unfold has_truthy_id in Hsel. now apply andb_true_iff in Hsel.
Qed.

(** When no two scanned nodes share an id, every node that has one is
    found under it. *)
Theorem unique_ids_round_trip (root : TreeNode) (n : TreeNode) :
  ids_unique root ->
  In n (walk root) -> has_truthy_id n = true ->
  exists m, build_treeNodeMap root = Normal m /\ map_get m (id_value n) = Some n.
Proof.
  intros Huniq Hin Hsel.
  exists (set_each (filter has_truthy_id (walk root)) []).
  split; [apply build_treeNodeMap_normal|].
  destruct (last_occurrence
              (fun n' => same_value_zero (id_value n') (id_value n))
              (filter has_truthy_id (walk root)))
    as (before & a & later & Hsplit & Ha & Hlater).
  { exists n. split; [now apply filter_In | apply same_value_zero_refl]. }
  rewrite Hsplit, (map_get_set_each_app before a later [] _ Ha Hlater).
  f_equal. assert (Hin_a : In a (filter has_truthy_id (walk root))).
  { rewrite Hsplit. apply in_or_app. right. now left. }
  apply filter_In in Hin_a as [Hin_a Hsel_a].
  now apply Huniq.
Qed.

Lemma demo_tree_ids_unique : ids_unique demo_tree.
Proof.
  intros n1 n2 H1 H2 S1 S2 Heq.
  simpl in H1, H2.
  destruct H1 as [<- | [<- | [<- | [<- | []]]]];
    try (vm_compute in S1; discriminate S1);
    destruct H2 as [<- | [<- | [<- | [<- | []]]]];
    try (vm_compute in S2; discriminate S2);
    try reflexivity; vm_compute in Heq; discriminate Heq.
Qed.

Lemma unique_ids_round_trip_witness :
  exists m, build_treeNodeMap demo_tree = Normal m
            /\ map_get m (id_value numbered_node) = Some numbered_node.
Proof.
  apply (@unique_ids_round_trip demo_tree numbered_node).
  - exact demo_tree_ids_unique.
  - simpl. right. right. left. reflexivity.
  - vm_compute. reflexivity.
Defined.

(* ================================================================== *)
(** ** More on the handlers *)

Lemma cannot_trim_or_null (u : JSValue) : cannot_trim (js_or u JNull) = cannot_trim u.
Proof.
  unfold js_or, cannot_trim. destruct (truthy u) eqn:E; [now rewrite E | reflexivity].
Qed.

Lemma createOrUpdateButton_raises_iff (u : JSValue) (s : AppState) :
  raises (fst (createOrUpdateButton u s)) = cannot_trim u.
Proof.
  unfold cannot_trim. destruct (truthy u) eqn:Hu.
  - destruct u as [| |b|x|t|r fs|r xs];
      try (destruct (@createOrUpdateButton_raises _ s Hu) as [e ->];
           [discriminate | reflexivity]).
    destruct t as [|c t']; [discriminate|].
    unfold createOrUpdateButton. run_handler.
    destruct (btnUrlDoc s); cbn;
      destruct (jsstring_eqb (trim (c :: t')) []); reflexivity.
  - now rewrite createOrUpdateButton_falsy.
Qed.

Lemma on_dropdown_change_all (s : AppState) :
  on_dropdown_change (utf16 "all") s
  = (Normal tt,
     with_console (console s ++ [not_found_message (utf16 "all")])
       (recreated true None
          (with_cameraViews
             (cameraViews s ++ [{| view_ids := []; view_transition := false |}])
             (with_selectedObjects [] s)))).
Proof.
  unfold on_dropdown_change.
  change (jsstring_eqb (utf16 "all") (utf16 "all")) with true. cbv beta iota.
  unfold bind, clearSelection, setCameraView, update, ret. cbv beta iota.
  rewrite createOrUpdateButton_falsy by reflexivity. reflexivity.
Qed.

Lemma on_dropdown_change_unknown (value : jsstring) (s : AppState) :
  jsstring_eqb value (utf16 "all") = false ->
  known_element value = None ->
  on_dropdown_change value s = console_log (not_found_message value) s.
Proof.
  unfold known_element, on_dropdown_change. intros -> Hk.
  destruct (jsstring_eqb value (utf16 "echappement")); [discriminate|].
  destruct (jsstring_eqb value (utf16 "catalyseur")); [discriminate|].
  reflexivity.
Qed.

(** The cases of an element selection. *)
Lemma on_dropdown_change_cases (value : jsstring) (s : AppState) :
  (value = utf16 "all")
  \/ (exists elementId tn,
        known_element value = Some elementId
        /\ map_get (treeNodeMap s) (JStr elementId) = Some tn
        /\ on_dropdown_change value s = ZoomOnTreeNode tn s)
  \/ ((known_element value = None
       \/ exists elementId, known_element value = Some elementId
            /\ map_get (treeNodeMap s) (JStr elementId) = None)
      /\ on_dropdown_change value s = console_log (not_found_message value) s).
Proof.
  destruct (jsstring_eqb value (utf16 "all")) eqn:Ea.
  { left. now apply jsstring_eqb_eq. }
  right. destruct (known_element value) as [elementId|] eqn:Hk.
  - rewrite (@on_dropdown_change_known value elementId s Hk).
    destruct (map_get (treeNodeMap s) (JStr elementId)) as [tn|] eqn:Hm.
    + left. now exists elementId, tn.
    + right. split; [right; now exists elementId | reflexivity].
  - right. split; [now left | now apply on_dropdown_change_unknown].
Qed.

(** A handler ends on an exception on the offending events and on no
    other: an empty list of hits, or a node, clicked or selected from the
    dropdown, whose URL_DOC is truthy without being a string.  Clicks on
    the panel, changes of the measurement panel and the value 'all' never
    raise. *)
Theorem handler_raises_iff_offending (e : Event) (s : AppState) :
  raises (fst (handle e s)) = offending e s.
Proof.
  destruct e as [value | ev | r | c]; simpl.
  - destruct (on_dropdown_change_cases value s)
      as [-> | [(elementId & tn & Hk & Hm & ->) | ([Hk | (elementId & Hk & Hm)] & ->)]].
    + now rewrite on_dropdown_change_all.
    + rewrite Hk, Hm, ZoomOnTreeNode_steps, createOrUpdateButton_raises_iff.
      apply cannot_trim_or_null.
    + now rewrite Hk.
    + now rewrite Hk, Hm.
  - destruct ev as [[[[|[n] others]|]]|]; try reflexivity.
    rewrite on_object_clicked_hit, createOrUpdateButton_raises_iff.
    apply cannot_trim_or_null.
  - unfold on_click, bind, read.
    destruct (pane_lookup (pane s) r) as [[bp [cb|]|]|]; try reflexivity.
    destruct (disabled bp); [reflexivity|]. now destruct cb.
  - reflexivity.
Qed.

(** What the button part of a call depends on. *)
Lemma createOrUpdateButton_button_part (u : JSValue) (s1 s2 : AppState) :
  pane s1 = pane s2 -> btnUrlDoc s1 = btnUrlDoc s2 ->
  fst (createOrUpdateButton u s1) = fst (createOrUpdateButton u s2)
  /\ pane (snd (createOrUpdateButton u s1)) = pane (snd (createOrUpdateButton u s2))
  /\ btnUrlDoc (snd (createOrUpdateButton u s1))
     = btnUrlDoc (snd (createOrUpdateButton u s2)).
Proof.
  intros Hp Hb. unfold createOrUpdateButton. run_handler. rewrite Hb.
  destruct (btnUrlDoc s2) eqn:Hb2; cbn;
    (destruct (truthy u); cbn;
     [ destruct (call_trim u) as [t|e]; cbn;
       [ destruct (negb (jsstring_eqb t [])); cbn | ] | ]);
    rewrite ?Hp; repeat split; congruence.
Qed.

(** Selecting an element from the dropdown leaves the documentation
    button as a click on the node found for it would: same completion,
    same panel, same [btnUrlDoc]. *)
Theorem selection_and_click_agree value elementId (tn : TreeNode) (s : AppState) :
  known_element value = Some elementId ->
  map_get (treeNodeMap s) (JStr elementId) = Some tn ->
  let selected := on_dropdown_change value s in
  let clicked := on_object_clicked (Some {| hits := Some [{| node := tn |}] |}) s in
  fst selected = fst clicked
  /\ pane (snd selected) = pane (snd clicked)
  /\ btnUrlDoc (snd selected) = btnUrlDoc (snd clicked).
Proof.
  intros Hk Hm. cbv zeta.
  rewrite (@on_dropdown_change_known value elementId s Hk), Hm,
    ZoomOnTreeNode_steps, on_object_clicked_hit.
  now apply createOrUpdateButton_button_part.
Qed.

Lemma selection_and_click_agree_witness :
  let selected := on_dropdown_change (utf16 "echappement") demo_state in
  let clicked :=
    on_object_clicked (Some {| hits := Some [{| node := exhaust_node |}] |}) demo_state in
  fst selected = fst clicked
  /\ pane (snd selected) = pane (snd clicked)
  /\ btnUrlDoc (snd selected) = btnUrlDoc (snd clicked).
Proof.
  apply (@selection_and_click_agree (utf16 "echappement") id_echappement
           exhaust_node demo_state).
  - vm_compute. reflexivity.
  - vm_compute. reflexivity.
Defined.

(** The value 'all' makes no lookup and never raises: the selection is
    emptied, the camera is asked for the general view without transition,
    the documentation button is re-created disabled under a fresh
    reference, and the final test still logs its message. *)
Theorem all_resets_and_logs (s : AppState) :
  let s' := snd (on_dropdown_change (utf16 "all") s) in
  fst (on_dropdown_change (utf16 "all") s) = Normal tt
  /\ selectedObjects s' = []
  /\ cameraViews s' = cameraViews s ++ [{| view_ids := []; view_transition := false |}]
  /\ btnUrlDoc s' = Some (next_ref (pane s))
  /\ (exists older,
        blades (pane s')
        = older ++ [(next_ref (pane s), Button (doc_button true) None)]
        /\ forall rb, In rb older -> In rb (blades (pane s)))
  /\ console s' = console s ++ [not_found_message (utf16 "all")]
  /\ sections s' = sections s
  /\ windows s' = windows s.
Proof.
  cbv zeta. rewrite on_dropdown_change_all. cbn [fst snd].
  repeat split.
  exists (kept s). split; [reflexivity|].
  intros rb Hin. unfold kept in Hin.
  destruct (btnUrlDoc s); [now apply filter_In in Hin | exact Hin].
Qed.

(* ================================================================== *)
(** ** Trimming *)

Lemma trimStart_blank (l : jsstring) :
  forallb is_white_space l = true -> trimStart l = [].
Proof.
  induction l as [|c l IH]; simpl; auto.
  destruct (is_white_space c); simpl; [exact IH | discriminate].
Qed.

Lemma trimStart_text (l : jsstring) :
  forallb is_white_space l = false ->
  exists c r, trimStart l = c :: r /\ is_white_space c = false.
Proof.
  induction l as [|c l IH]; simpl; [discriminate|].
  destruct (is_white_space c) eqn:E; simpl; [exact IH | eauto].
Qed.

(** A string trims to the empty string exactly when it has no text. *)
Lemma trim_empty (t : jsstring) :
  jsstring_eqb (trim t) [] = forallb is_white_space t.
Proof.
  unfold trim, trimEnd.
  destruct (forallb is_white_space t) eqn:E.
  - now rewrite (trimStart_blank t E).
  - destruct (trimStart_text t E) as (c & r & -> & Hc).
    destruct (trimStart_text (rev (c :: r))) as (c' & r' & -> & _).
    { simpl. rewrite forallb_app. simpl. rewrite Hc. now rewrite andb_false_r. }
    simpl. now destruct (rev r' ++ [c']) eqn:E'; [destruct (rev r') | ].
Qed.

Lemma has_text_not_blank (t : jsstring) :
  has_text (JStr t) = negb (forallb is_white_space t).
Proof.
  simpl. induction t as [|c t IH]; simpl; auto.
  rewrite IH. now destruct (is_white_space c).
Qed.

(** The outcome of a call, from the argument alone. *)
Lemma createOrUpdateButton_result (u : JSValue) (s : AppState) :
  references_fresh s ->
  (cannot_trim u = true /\ exists e, createOrUpdateButton u s = (Throw e, removed s))
  \/ (cannot_trim u = false
      /\ createOrUpdateButton u s
         = (Normal tt,
            if has_text u then recreated false (Some (OpenWindow u)) s
            else recreated true None s)).
Proof.
  intros Hfresh. unfold cannot_trim.
  destruct (truthy u) eqn:Hu.
  - destruct u as [| |b|x|t|r fs|r xs];
      try (left; split; [reflexivity|];
           apply createOrUpdateButton_raises; [exact Hu | discriminate]).
    right. split; [reflexivity|].
    rewrite createOrUpdateButton_string by assumption.
    rewrite has_text_not_blank, trim_empty.
    now destruct (forallb is_white_space t).
  - right. split; [reflexivity|].
    rewrite createOrUpdateButton_falsy by assumption.
    destruct u as [| |b|x|t|r fs|r xs]; try reflexivity; try discriminate.
    destruct t; [reflexivity | discriminate].
Qed.

(** A call that does not raise enables the button exactly when its
    argument is a string holding something else than white space; the
    click then opens the argument as it is, untrimmed. *)
Theorem button_enabled_iff_text (u : JSValue) (s : AppState) :
  references_fresh s ->
  cannot_trim u = false ->
  createOrUpdateButton u s
  = (Normal tt,
     if has_text u then recreated false (Some (OpenWindow u)) s
     else recreated true None s).
Proof.
  intros Hfresh Hu.
  destruct (createOrUpdateButton_result u Hfresh) as [[Hu' _] | [_ H]];
    [congruence | exact H].
Qed.

Lemma button_enabled_iff_text_witness :
  createOrUpdateButton (JStr (utf16 "  https://docs.example/a.pdf ")) demo_state
  = (Normal tt,
     recreated false
       (Some (OpenWindow (JStr (utf16 "  https://docs.example/a.pdf ")))) demo_state).
Proof.
  apply (@button_enabled_iff_text (JStr (utf16 "  https://docs.example/a.pdf "))
           demo_state).
  - apply initial_state_fresh.
  - reflexivity.
Defined.

(* ================================================================== *)
(** ** What holds in every state *)

(** A property that calls of [createOrUpdateButton] and clicks on the
    panel keep, and that looks at the panel, [btnUrlDoc] and the opened
    windows only, holds after every event. *)
Lemma handle_preserves (P : AppState -> Prop) :
  (forall s s', pane s' = pane s -> btnUrlDoc s' = btnUrlDoc s ->
                windows s' = windows s -> P s -> P s') ->
  (forall u s, button_invariant s -> P s -> P (snd (createOrUpdateButton u s))) ->
  (forall r s, button_invariant s -> P s -> P (snd (on_click r s))) ->
  forall e s, button_invariant s -> P s -> P (snd (handle e s)).
Proof.
  intros Hsame Hcall Hclick e s Hinv HP.
  destruct e as [value | ev | r | c]; simpl.
  - destruct (on_dropdown_change_cases value s)
      as [-> | [(elementId & tn & _ & _ & ->) | (_ & ->)]].
    + rewrite on_dropdown_change_all. cbn [snd].
      set (s1 := with_cameraViews _ (with_selectedObjects [] s)).
      assert (H1 : P (snd (createOrUpdateButton JNull s1))).
      { apply Hcall; [revert Hinv; now apply button_invariant_same
                     | revert HP; now apply Hsame]. }
      rewrite createOrUpdateButton_falsy in H1 by reflexivity. cbn [snd] in H1.
      revert H1. now apply Hsame.
    + rewrite ZoomOnTreeNode_steps. apply Hcall.
      * revert Hinv. now apply button_invariant_same.
      * revert HP. now apply Hsame.
    + revert HP. now apply Hsame.
  - destruct ev as [[[[|[n] others]|]]|]; try exact HP.
    rewrite on_object_clicked_hit. now apply Hcall.
  - now apply Hclick.
  - revert HP. now apply Hsame.
Qed.

Lemma after_preserves (P : AppState -> Prop) :
  (forall e s, button_invariant s -> P s -> P (snd (handle e s))) ->
  forall events s, button_invariant s -> P s -> P (after events s).
Proof.
  intros Hstep events. induction events as [|e events IH]; intros s Hinv HP; simpl; auto.
  apply IH; [now apply handle_invariant | now apply Hstep].
Qed.


(** What no handler writes: the map, and the box of the scene. *)
Lemma handle_frame (e : Event) (s : AppState) :
  treeNodeMap (snd (handle e s)) = treeNodeMap s
  /\ sceneBox (snd (handle e s)) = sceneBox s.
Proof.
  destruct e as [value | ev | r | c]; simpl.
  - destruct (on_dropdown_change_cases value s)
      as [-> | [(elementId & tn & _ & _ & ->) | (_ & ->)]].
    + rewrite on_dropdown_change_all. split; reflexivity.
    + rewrite ZoomOnTreeNode_steps.
      match goal with
      | |- context [createOrUpdateButton ?u ?s1] =>
          destruct (createOrUpdateButton_frame u s1) as (_ & _ & _ & Hb & _ & Hm & _)
      end.
      rewrite Hb, Hm. split; reflexivity.
    + split; reflexivity.
  - destruct ev as [[[[|[n] others]|]]|]; try (split; reflexivity).
    rewrite on_object_clicked_hit.
    destruct (createOrUpdateButton_frame (js_or (URL_DOC n) JNull) s)
      as (_ & _ & _ & Hb & _ & Hm & _).
    now rewrite Hb, Hm.
  - unfold on_click, bind, read.
    destruct (pane_lookup (pane s) r) as [[bp [cb|]|]|]; try (split; reflexivity).
    destruct (disabled bp); [split; reflexivity|]. destruct cb; split; reflexivity.
  - split; reflexivity.
Qed.

Lemma after_frame (events : list Event) (s : AppState) :
  treeNodeMap (after events s) = treeNodeMap s
  /\ sceneBox (after events s) = sceneBox s.
Proof.
  revert s. induction events as [|e events IH]; intros s; simpl; [now split|].
  destruct (IH (snd (handle e s))) as [-> ->]. apply handle_frame.
Qed.

Lemma reachable_from_map (env : Environment) (s : AppState) :
  reachable_from env s ->
  treeNodeMap s = set_each (filter has_truthy_id (walk (worldTree env))) []
  /\ sceneBox s = renderer_sceneBox env.
Proof.
  intros (t & s0 & events & Hmain & ->).
  destruct (after_frame events s0) as [-> ->].
  apply main_done in Hmain as (m & Hm & ->).
  rewrite build_treeNodeMap_normal in Hm. injection Hm as <-. now split.
Qed.

(** End to end.  Whatever happened since [main] completed, selecting a
    known element either finds a node of the loaded world tree that
    carries the id written for it, empties the selection and asks the
    camera for that node; or the tree has no such node and the handler
    only logs. *)
Theorem selection_end_to_end (env : Environment) (s : AppState) value elementId :
  reachable_from env s ->
  known_element value = Some elementId ->
  let s' := snd (on_dropdown_change value s) in
  (exists tn,
      In tn (walk (worldTree env))
      /\ carries tn (JStr elementId)
      /\ selectedObjects s' = []
      /\ cameraViews s'
         = cameraViews s ++ [{| view_ids := [id (model tn)]; view_transition := true |}])
  \/ ((forall n, In n (walk (worldTree env)) -> ~ carries n (JStr elementId))
      /\ on_dropdown_change value s
         = (Normal tt, with_console (console s ++ [not_found_message value]) s)).
Proof.
  intros Hreach Hk. cbv zeta.
  destruct (reachable_from_map Hreach) as [Hmap _].
  rewrite (@on_dropdown_change_known value elementId s Hk), Hmap.
  destruct (map_get _ (JStr elementId)) as [tn|] eqn:Hm.
  - left. exists tn.
    apply map_get_set_each_some in Hm as [Hm | [Hin Hsvz]]; [discriminate|].
    apply filter_In in Hin as [Hin Hsel].
    split; [exact Hin|]. split; [now split|].
    rewrite ZoomOnTreeNode_steps.
    match goal with
    | |- context [createOrUpdateButton ?u ?s1] =>
        destruct (createOrUpdateButton_frame u s1) as (Hs & Hc & _)
    end.
    now rewrite Hs, Hc.
  - right. split; [|reflexivity].
    intros n Hin [Hsel Hsvz].
    destruct (last_occurrence (fun n' => same_value_zero (id_value n') (JStr elementId))
                (filter has_truthy_id (walk (worldTree env))))
      as (before & a & later & Hsplit & Ha & Hlater).
    { exists n. split; [now apply filter_In | exact Hsvz]. }
    rewrite Hsplit, (map_get_set_each_app before a later [] _ Ha Hlater) in Hm.
    discriminate.
Qed.

Lemma demo_reachable_from (events : list Event) :
  reachable_from demo_env (after events demo_state).
Proof.
  eexists _, demo_state, events. split; [exact demo_main | reflexivity].
Qed.

Lemma selection_end_to_end_witness :
  let s := after [click_on plain_node] demo_state in
  let s' := snd (on_dropdown_change (utf16 "catalyseur") s) in
  (exists tn,
      In tn (walk (worldTree demo_env))
      /\ carries tn (JStr id_catalyseur)
      /\ selectedObjects s' = []
      /\ cameraViews s'
         = cameraViews s ++ [{| view_ids := [id (model tn)]; view_transition := true |}])
  \/ ((forall n, In n (walk (worldTree demo_env)) -> ~ carries n (JStr id_catalyseur))
      /\ on_dropdown_change (utf16 "catalyseur") s
         = (Normal tt,
            with_console (console s ++ [not_found_message (utf16 "catalyseur")]) s)).
Proof.
  apply (@selection_end_to_end demo_env (after [click_on plain_node] demo_state)
           (utf16 "catalyseur") id_catalyseur).
  - apply demo_reachable_from.
  - vm_compute. reflexivity.
Defined.

(* ================================================================== *)
(** ** The blades of the panel *)

Lemma filter_all {A} (f : A -> bool) (l : list A) :
  (forall a, In a l -> f a = true) -> filter f l = l.
Proof.
  induction l as [|x l IH]; intros H; simpl; auto.
  rewrite (H x) by now left. f_equal. apply IH. intros; apply H; now right.
Qed.

Lemma initial_blades_below_3 r b : In (r, b) (blades initial_pane) -> (r < 3)%N.
Proof.
  intros Hin. apply (in_map fst) in Hin.
  rewrite initial_pane_references in Hin. simpl in Hin. lia.
Qed.

Lemma initial_blades_kept (old : N) :
  (3 <= old)%N ->
  filter (fun rb : N * Blade => negb (N.eqb (fst rb) old)) (blades initial_pane)
  = blades initial_pane.
Proof.
  intros Hold. apply filter_all. intros [r b] Hin. simpl.
  apply initial_blades_below_3 in Hin.
  destruct (N.eqb r old) eqn:E; auto. apply N.eqb_eq in E. lia.
Qed.

Lemma shaped_kept (s : AppState) : shaped s -> kept s = blades initial_pane.
Proof.
  intros ([Hb | (r & d & cb & Hb & Hr)] & _ & Hold); unfold kept.
  - destruct (btnUrlDoc s) as [old|] eqn:E; rewrite Hb; auto.
    now apply initial_blades_kept, Hold.
  - rewrite Hr, Hb, filter_app, initial_blades_kept by now apply Hold.
    cbn [filter fst]. rewrite N.eqb_refl. cbn [negb]. apply app_nil_r.
Qed.

Lemma shaped_call (u : JSValue) (s : AppState) :
  button_invariant s -> shaped s -> shaped (snd (createOrUpdateButton u s)).
Proof.
  intros Hinv Hs. pose proof (shaped_kept Hs) as Hk.
  destruct Hs as (_ & Hnext & Hold).
  destruct (createOrUpdateButton_outcome u (proj1 Hinv))
    as [(d & cb & ->) | (e & ->)]; cbn [snd].
  - destruct (recreated_shape d cb s) as [Hp Hb].
    split; [|split].
    + right. exists (next_ref (pane s)), d, cb. rewrite Hp, Hk. now split.
    + rewrite Hp. cbn. lia.
    + intros r Hr. rewrite Hb in Hr. injection Hr as <-. exact Hnext.
  - destruct (removed_shape s) as [Hp Hb].
    split; [|split].
    + left. rewrite Hp, Hk. reflexivity.
    + rewrite Hp. exact Hnext.
    + rewrite Hb. exact Hold.
Qed.

Lemma on_click_button_part (r : N) (s : AppState) :
  pane (snd (on_click r s)) = pane s /\ btnUrlDoc (snd (on_click r s)) = btnUrlDoc s.
Proof.
  unfold on_click, bind, read.
  destruct (pane_lookup (pane s) r) as [[bp [cb|]|]|]; try (split; reflexivity).
  destruct (disabled bp); [split; reflexivity|]. destruct cb; split; reflexivity.
Qed.

Lemma shaped_same (s s' : AppState) :
  pane s' = pane s -> btnUrlDoc s' = btnUrlDoc s -> shaped s -> shaped s'.
Proof. unfold shaped, panel_shape. now intros -> ->. Qed.

Lemma reachable_shaped (s : AppState) : reachable s -> shaped s.
Proof.
  intros (env & t & s0 & events & Hmain & ->).
  apply main_done in Hmain as (m & _ & ->).
  apply after_preserves.
  - apply handle_preserves.
    + intros s s' Hp Hb _. now apply shaped_same.
    + apply shaped_call.
    + intros r s _. destruct (on_click_button_part r s). now apply shaped_same.
  - apply initial_state_invariant.
  - split; [now left|]. split; [|discriminate].
    change (next_ref (pane (initial_state env m))) with 3%N. lia.
Qed.

(** In every state the application reaches, the panel is the three
    blades [main] put there (the two section buttons and the dropdown),
    untouched, followed by at most one documentation button, which is the
    one [btnUrlDoc] refers to. *)
Theorem panel_keeps_its_blades (s : AppState) :
  reachable s ->
  panel_shape s
  /\ pane_lookup (pane s) 0
     = Some (Button {| title := utf16 "Toggle Section Boxes";
                       disabled := false; label := None |}
               (Some ToggleSectionBoxes))
  /\ pane_lookup (pane s) 1
     = Some (Button {| title := utf16 "Reset Section Boxes";
                       disabled := false; label := None |}
               (Some ResetSectionBoxes)).
Proof.
  intros Hreach. destruct (reachable_shaped Hreach) as (Hshape & _).
  split; [exact Hshape|].
  unfold pane_lookup.
  destruct Hshape as [-> | (r & d & cb & -> & _)]; split; reflexivity.
Qed.

Lemma panel_keeps_its_blades_witness :
  panel_shape (after [click_on exhaust_node; click_on numbered_node;
                      DropdownChange (utf16 "all")] demo_state).
Proof.
  refine (proj1 (@panel_keeps_its_blades _ _)).
  apply demo_reachable.
Defined.

(* ================================================================== *)
(** ** What the page opens *)

Lemma blades_lookup_In (bs : list (N * Blade)) (r : N) (b : Blade) :
  blades_lookup bs r = Some b -> In (r, b) bs.
Proof.
  induction bs as [|[r' b'] bs IH]; simpl; [discriminate|].
  destruct (N.eqb r' r) eqn:E.
  - apply N.eqb_eq in E. intros [= ->]. left. now subst.
  - intros H. right. auto.
Qed.

Lemma kept_included (s : AppState) rb : In rb (kept s) -> In rb (blades (pane s)).
Proof.
  unfold kept. destruct (btnUrlDoc s); [|auto].
  intros H. now apply filter_In in H.
Qed.

Lemma opens_only_text_call (u : JSValue) (s : AppState) :
  button_invariant s -> opens_only_text s ->
  opens_only_text (snd (createOrUpdateButton u s)).
Proof.
  intros Hinv [Hpane Hwin].
  destruct (createOrUpdateButton_frame u s) as (_ & _ & _ & _ & _ & _ & _ & _ & Hw).
  split; [|now rewrite Hw].
  destruct (createOrUpdateButton_result u (proj1 Hinv)) as [[_ [e ->]] | [_ ->]];
    cbn [snd].
  - destruct (removed_shape s) as [-> _]. cbn [blades].
    intros r bp v Hin. apply kept_included in Hin. eauto.
  - destruct (has_text u) eqn:Hu.
    + destruct (recreated_shape false (Some (OpenWindow u)) s) as [-> _].
      cbn [blades]. intros r bp v Hin.
      apply in_app_or in Hin as [Hin | [[= _ _ <-] | []]]; [|exact Hu].
      apply kept_included in Hin. eauto.
    + destruct (recreated_shape true None s) as [-> _].
      cbn [blades]. intros r bp v Hin.
      apply in_app_or in Hin as [Hin | [[=] | []]].
      apply kept_included in Hin. eauto.
Qed.

Lemma opens_only_text_click (r : N) (s : AppState) :
  opens_only_text s -> opens_only_text (snd (on_click r s)).
Proof.
  intros [Hpane Hwin]. unfold on_click, bind, read.
  destruct (pane_lookup (pane s) r) as [[bp [cb|]|]|] eqn:Hl; try (now split).
  destruct (disabled bp); [now split|].
  destruct cb as [| |u]; try (now split).
  apply blades_lookup_In in Hl. split; [exact Hpane|].
  cbn. intros v target Hin.
  apply in_app_or in Hin as [Hin | [[= <- <-] | []]]; eauto.
Qed.

(** The page only ever opens documentation URLs: in every state the
    application reaches, each [window.open] made so far, and each one a
    button of the panel would make, is for a string that holds something
    else than white space, in a new tab. *)
Theorem only_text_urls_are_opened (s : AppState) :
  reachable s -> opens_only_text s.
Proof.
  intros (env & t & s0 & events & Hmain & ->).
  apply main_done in Hmain as (m & _ & ->).
  apply after_preserves.
  - apply handle_preserves.
    + intros s s' Hp Hb Hw. unfold opens_only_text. now rewrite Hp, Hw.
    + apply opens_only_text_call.
    + intros r s _. apply opens_only_text_click.
  - apply initial_state_invariant.
  - split.
    + intros r bp u Hin. exfalso. cbn in Hin.
      repeat (destruct Hin as [Hin | Hin]; [discriminate Hin|]). exact Hin.
    + intros u target [].
Qed.

Lemma only_text_urls_are_opened_witness :
  opens_only_text
    (after [click_on exhaust_node; Click 3; click_on numbered_node; Click 3] demo_state).
Proof.
  apply (@only_text_urls_are_opened _).
  apply demo_reachable.
Defined.

Example opened_after_clicks :
  windows (after [click_on exhaust_node; Click 3; click_on numbered_node; Click 3]
             demo_state)
  = [(JStr exhaust_url, utf16 "_blank")].
Proof. vm_compute. reflexivity. Qed.

(* ================================================================== *)
(** ** The section buttons *)

Lemma reachable_toggle_button (s : AppState) :
  reachable s ->
  on_click 0 s = run_click ToggleSectionBoxes s
  /\ on_click 1 s = run_click ResetSectionBoxes s.
Proof.
  intros Hreach. destruct (reachable_shaped Hreach) as (Hshape & _).
  unfold on_click, bind, read, pane_lookup.
  destruct Hshape as [-> | (r & d & cb & -> & _)]; split; reflexivity.
Qed.

(** A click on 'Toggle Section Boxes', in any state the application
    reaches, flips [sectionEnabled] and gives the section tool the new
    value; the box stays.  A second click undoes the first. *)
Theorem toggle_flips_both_flags (s : AppState) :
  reachable s ->
  let s1 := snd (on_click 0 s) in
  let s2 := snd (on_click 0 s1) in
  sectionEnabled s1 = negb (sectionEnabled s)
  /\ sections_enabled (sections s1) = negb (sectionEnabled s)
  /\ sections_box (sections s1) = sections_box (sections s)
  /\ sectionEnabled s2 = sectionEnabled s
  /\ sections_enabled (sections s2) = sectionEnabled s.
Proof.
  intros Hreach. cbv zeta.
  destruct (reachable_toggle_button Hreach) as [H0 _]. rewrite H0.
  assert (Hreach1 : reachable (snd (run_click ToggleSectionBoxes s))).
  { rewrite <- H0. destruct Hreach as (env & t & s0 & events & Hmain & ->).
    exists env, t, s0, (events ++ [Click 0%N]). split; [exact Hmain|].
    unfold after. now rewrite fold_left_app. }
  destruct (reachable_toggle_button Hreach1) as [H1 _]. rewrite H1.
  cbn. rewrite negb_involutive. repeat split.
Qed.

Lemma toggle_flips_both_flags_witness :
  let s1 := snd (on_click 0 demo_state) in
  sectionEnabled s1 = negb (sectionEnabled demo_state)
  /\ sections_enabled (sections s1) = negb (sectionEnabled demo_state).
Proof.
  pose proof (@toggle_flips_both_flags demo_state (demo_reachable [])) as H.
  cbv zeta in H. destruct H as (H1 & H2 & _). split; [exact H1 | exact H2].
Defined.

Lemma handle_section_flags (e : Event) (s : AppState) :
  sections_enabled (sections s) = sectionEnabled s ->
  sections_enabled (sections (snd (handle e s))) = sectionEnabled (snd (handle e s)).
Proof.
  intros Heq. destruct e as [value | ev | r | c]; simpl.
  - destruct (on_dropdown_change_cases value s)
      as [-> | [(elementId & tn & _ & _ & ->) | (_ & ->)]].
    + rewrite on_dropdown_change_all. exact Heq.
    + rewrite ZoomOnTreeNode_steps.
      match goal with
      | |- context [createOrUpdateButton ?u ?s1] =>
          destruct (createOrUpdateButton_frame u s1)
            as (_ & _ & Hsec & _ & _ & _ & Hflag & _)
      end.
      rewrite Hsec, Hflag. exact Heq.
    + exact Heq.
  - destruct ev as [[[[|[n] others]|]]|]; try exact Heq.
    rewrite on_object_clicked_hit.
    destruct (createOrUpdateButton_frame (js_or (URL_DOC n) JNull) s)
      as (_ & _ & Hsec & _ & _ & _ & Hflag & _).
    now rewrite Hsec, Hflag.
  - unfold on_click, bind, read.
    destruct (pane_lookup (pane s) r) as [[bp [cb|]|]|]; try exact Heq.
    destruct (disabled bp); [exact Heq|]. destruct cb; cbn; auto.
  - exact Heq.
Qed.

(** [sectionEnabled] starts at true on the assumption that [toggle] has
    switched the tool on.  When the tool is created switched off, the
    variable and the tool's flag agree in every state the application
    reaches. *)
Theorem section_flag_follows_tool (env : Environment) (s : AppState) :
  sections_enabled (new_SectionTool env) = false ->
  reachable_from env s ->
  sections_enabled (sections s) = sectionEnabled s.
Proof.
  intros Hoff (t & s0 & events & Hmain & ->).
  apply main_done in Hmain as (m & _ & ->).
  assert (H0 : sections_enabled (sections (initial_state env m))
               = sectionEnabled (initial_state env m)) by (cbn; now rewrite Hoff).
  revert H0. generalize (initial_state env m).
  induction events as [|e events IH]; intros s H0; simpl; auto.
  apply IH. now apply handle_section_flags.
Qed.

Lemma section_flag_follows_tool_witness :
  sections_enabled
    (sections (after [Click 0; click_on plain_node; Click 0; Click 0] demo_state))
  = sectionEnabled (after [Click 0; click_on plain_node; Click 0; Click 0] demo_state).
Proof.
  apply (@section_flag_follows_tool demo_env).
  - reflexivity.
  - apply demo_reachable_from.
Defined.



(* ================================================================== *)
(** ** The measurement panel, over time *)




(** [main] leaves the two in agreement, whatever the extension was
    created with: it switches the extension off, and the field starts
    off. *)
Lemma initial_measurements_agree (env : Environment) :
  MeasurementsUI.ext_enabled
    (MeasurementsUI.measurementsExtension (initial_measurements env))
  = MeasurementsUI.enabled (MeasurementsUI.params (initial_measurements env)).
Proof. reflexivity. Qed.

(* ================================================================== *)
(** ** When start-up completes *)

Ltac failed_run :=
  split; split;
  [ intros [? H]; discriminate H
  | intros (H1 & H2 & H3 & ? & H4 & H5); congruence
  | intros H; cbn in H; intuition discriminate
  | intros [? H]; discriminate H ].

(** [main] completes exactly when the two constructors return and every
    awaited promise is fulfilled; the spinner is stopped in those runs
    and in no other, so a failed or stalled start-up leaves it
    spinning. *)
Theorem main_completes_iff_all_goes_well (env : Environment) :
  ((exists s0, snd (main env) = Done s0) <-> all_goes_well env)
  /\ (In SpinnerStop (fst (main env)) <-> exists s0, snd (main env) = Done s0).
Proof.
  unfold all_goes_well, main, abind, call, await, aret.
  destruct (Spinner_spin env (has_spinner env)) as [[]|e0]; cbn;
    [|now failed_run].
  destruct (Viewer_new env (has_renderer env)) as [[]|e0]; cbn;
    [|now failed_run].
  destruct (viewer_init env) as [[]|e0|]; cbn; [|now failed_run ..].
  destruct (getResourceUrls env) as [urls|e0|]; cbn; [|now failed_run ..].
  pose proof (load_all_done_iff env urls) as Hdone.
  pose proof (load_all_steps env urls) as Hsteps.
  rewrite build_treeNodeMap_normal.
  destruct (load_all env urls) as [tl [[]|e0|]]; cbn in *.
  - assert (Hall : forall url, In url urls -> loadObject env url = Fulfills tt)
      by now apply Hdone.
    destruct (has_loading_spinner env); cbn;
      (split; [split; [intros _; repeat split; eauto | intros _; eexists; reflexivity]|]);
      (split; [intros _; eexists; reflexivity|]); intros _;
      do 11 right; apply in_or_app; right; now left.
  - split; (split; [intros H | intros H]); try (destruct H; discriminate).
    + destruct H as (_ & _ & _ & u & Hu & H). injection Hu as <-.
      apply Hdone in H. discriminate.
    + exfalso. repeat (destruct H as [H | H]; [discriminate H|]).
      rewrite ?app_nil_r in H. destruct (Hsteps _ H) as [u [Hu | Hu]]; discriminate.
  - split; (split; [intros H | intros H]); try (destruct H; discriminate).
    + destruct H as (_ & _ & _ & u & Hu & H). injection Hu as <-.
      apply Hdone in H. discriminate.
    + exfalso. repeat (destruct H as [H | H]; [discriminate H|]).
      rewrite ?app_nil_r in H. destruct (Hsteps _ H) as [u [Hu | Hu]]; discriminate.
Qed.

Lemma load_all_with_loading_spinner (b : bool) (env : Environment) urls :
  load_all (with_loading_spinner b env) urls = load_all env urls.
Proof.
  induction urls as [|url urls IH]; cbn; auto. now rewrite IH.
Qed.

Ltac stopped_run :=
  split; [reflexivity|]; split; [reflexivity|];
  split; [ intros H; exfalso; cbn in H; intuition discriminate
         | intros [_ [? H]]; discriminate H ].

(** The element 'loading-spinner' is the one [main] tests before use:
    whether it is there changes neither how the run ends nor, the hiding
    step aside, what the run does; the element is hidden exactly in the
    runs that complete with it present. *)
Theorem loading_spinner_is_optional (present : bool) (env : Environment) :
  snd (main (with_loading_spinner present env)) = snd (main env)
  /\ filter (fun st => negb (is_hiding st)) (fst (main (with_loading_spinner present env)))
     = filter (fun st => negb (is_hiding st)) (fst (main env))
  /\ (In HideLoadingDiv (fst (main env))
      <-> has_loading_spinner env = true /\ exists s0, snd (main env) = Done s0).
Proof.
  unfold main, abind, call, await, aret.
  cbn [has_spinner has_renderer has_loading_spinner Spinner_spin Viewer_new
       viewer_init getResourceUrls worldTree with_loading_spinner].
  pose proof (fun urls => load_all_steps env urls HideLoadingDiv) as Hsteps.
  assert (Hno : forall urls, ~ In HideLoadingDiv (fst (load_all env urls))).
  { intros urls Hin. destruct (Hsteps urls Hin) as [u [Hu | Hu]]; discriminate. }
  clear Hsteps.
  destruct (Spinner_spin env (has_spinner env)) as [[]|e0]; cbn;
    [|now stopped_run].
  destruct (Viewer_new env (has_renderer env)) as [[]|e0]; cbn;
    [|now stopped_run].
  destruct (viewer_init env) as [[]|e0|]; cbn;
    [|now stopped_run ..].
  destruct (getResourceUrls env) as [urls|e0|]; cbn;
    [|now stopped_run ..].
  rewrite load_all_with_loading_spinner, !build_treeNodeMap_normal.
  specialize (Hno urls).
  destruct (load_all env urls) as [tl [[]|e0|]]; cbn in *.
  - destruct present, (has_loading_spinner env); cbn;
      rewrite ?filter_app; cbn;
      (split; [reflexivity|]); (split; [reflexivity|]);
      (split; [intros H | intros [H _]]); try discriminate;
      try (split; [reflexivity | eexists; reflexivity]);
      try (do 11 right; apply in_or_app; right; right; now left);
      exfalso; repeat (destruct H as [H | H]; [discriminate H|]);
      apply in_app_or in H as [H | H]; auto;
      repeat (destruct H as [H | H]; [discriminate H|]); exact H.
  - split; [reflexivity|]. split; [reflexivity|].
    split; [intros H | intros [_ [s0 H]]; discriminate].
    exfalso. repeat (destruct H as [H | H]; [discriminate H|]).
    rewrite ?app_nil_r in H. auto.
  - split; [reflexivity|]. split; [reflexivity|].
    split; [intros H | intros [_ [s0 H]]; discriminate].
    exfalso. repeat (destruct H as [H | H]; [discriminate H|]).
    rewrite ?app_nil_r in H. auto.
Qed.

(* ================================================================== *)
(** ** The placement of the control panel *)

Lemma px_40 : px 40 = utf16 "40px".
Proof. reflexivity. Qed.

Lemma adjust_overwrites (el : Element) (first : option Element) (st : Style) :
  adjustControlPanelPosition (Some el) (adjustControlPanelPosition first st)
  = adjustControlPanelPosition (Some el) st.
Proof. destruct first; reflexivity. Qed.

Lemma last_cons {A} (a d : A) (l : list A) : last (a :: l) d = last l a.
Proof.
  revert a d. induction l as [|b l IH]; intros a d; [reflexivity|].
  change (last (a :: b :: l) d) with (last (b :: l) d).
  now rewrite !(IH b).
Qed.

Lemma observed_latest (el0 : Element) (readings : list Element)
    (first : option Element) (st : Style) :
  observed (Some el0) readings (adjustControlPanelPosition first st)
  = adjustControlPanelPosition (last (map Some readings) first) st.
Proof.
  revert first. induction readings as [|el readings IH]; intros first; [reflexivity|].
  change (observed (Some el0) (el :: readings) (adjustControlPanelPosition first st))
    with (observed (Some el0) readings
            (adjustControlPanelPosition (Some el) (adjustControlPanelPosition first st))).
  rewrite adjust_overwrites, (IH (Some el)).
  cbn [map]. now rewrite last_cons.
Qed.

Lemma observed_without_first_panel (readings : list Element) (st : Style) :
  observed None readings st = st.
Proof. induction readings as [|el readings IH]; [reflexivity | exact IH]. Qed.

Lemma last_map_Some (readings : list Element) (el0 : Element) :
  last (map Some readings) (Some el0) = Some (last readings el0).
Proof.
  revert el0. induction readings as [|el readings IH]; intros el0; [reflexivity|].
  cbn [map]. now rewrite !last_cons, IH.
Qed.

(** The control panel is placed from the latest measure of the first
    panel alone: after the first adjustment and any number of observed
    mutations, it is absolute, 1px from the left, as wide as the first
    panel, and below it: at 40px while the first panel is at most 40px
    high, 10px under its lower edge otherwise, so never above 40px.
    Without a first panel, width and top are left as they were, whatever
    is observed, and registering the observer raises. *)
Theorem panel_follows_first_panel
    (firstPaneElement : option Element) (readings : list Element) (st : Style) :
  let final := observed firstPaneElement readings (place_panel firstPaneElement st) in
  style_position final = utf16 "absolute"
  /\ style_left final = utf16 "1px"
  /\ match firstPaneElement with
     | Some el0 =>
         let el := last readings el0 in
         observe firstPaneElement = Normal tt
         /\ style_width final = px (offsetWidth el)
         /\ exists top,
              style_top final = px top
              /\ (40 <= top)%N
              /\ top = (if (40 <? clientHeight el)%N then clientHeight el + 10 else 40)%N
     | None =>
         style_width final = style_width st /\ style_top final = style_top st
         /\ raises (observe firstPaneElement) = true
     end.
Proof.
  cbv zeta. unfold place_panel.
  destruct firstPaneElement as [el0|].
  - rewrite observed_latest, last_map_Some. cbn. repeat split.
    destruct (40 <? clientHeight (last readings el0))%N eqn:E.
    + exists (clientHeight (last readings el0) + 10)%N. repeat split.
      apply N.ltb_lt in E. lia.
    + exists 40%N. repeat split. lia.
  - rewrite observed_without_first_panel. cbn. repeat split.
Qed.

Example placement_example :
  observed (Some {| offsetWidth := 256; clientHeight := 30 |})
    [{| offsetWidth := 256; clientHeight := 30 |};
     {| offsetWidth := 256; clientHeight := 212 |}]
    (place_panel (Some {| offsetWidth := 256; clientHeight := 30 |})
       {| style_position := []; style_left := []; style_width := []; style_top := [] |})
  = {| style_position := utf16 "absolute"; style_left := utf16 "1px";
       style_width := utf16 "256px"; style_top := utf16 "222px" |}.
Proof. reflexivity. Qed.

Example placement_without_first_panel :
  observed None [{| offsetWidth := 256; clientHeight := 212 |}]
    (place_panel None
       {| style_position := []; style_left := []; style_width := []; style_top := [] |})
  = {| style_position := utf16 "absolute"; style_left := utf16 "1px";
       style_width := []; style_top := [] |}.
Proof. reflexivity. Qed.

(* ================================================================== *)
(** ** The section box *)

Lemma times_2_52 (m : positive) :
  (m * 4503599627370496)%positive
  = (m~0~0~0~0~0~0~0~0~0~0~0~0~0~0~0~0~0~0~0~0~0~0~0~0~0~0~0~0~0~0~0~0~0~0~0~0~0~0~0~0~0~0~0~0~0~0~0~0~0~0~0~0)%positive.
Proof. rewrite Pos.mul_comm. reflexivity. Qed.

Lemma digits_times_2_52 (m : positive) :
  (Z.pos (digits2_pos (m * 4503599627370496)) = Z.pos (digits2_pos m) + 52)%Z.
Proof.
  rewrite times_2_52. cbn [digits2_pos]. rewrite !Pos2Z.inj_succ. lia.
Qed.

(** [z *= 1] leaves a double as it is. *)
Lemma times_1 (x : spec_float) :
  valid_binary 53 1024 x = true -> SFmul 53 1024 x number_1 = x.
Proof.
  destruct x as [s|s| |s m e]; cbn [SFmul number_1 valid_binary]; intros Hv;
    try (now rewrite ?xorb_false_r).
  rewrite xorb_false_r.
  unfold bounded, canonical_mantissa in Hv.
  apply andb_true_iff in Hv as [Hc He].
  apply Z.eqb_eq in Hc.
  unfold binary_round_aux, shr_fexp.
  cbn [Zdigits2]. rewrite digits_times_2_52.
  replace (Z.pos (digits2_pos m) + 52 + (e + -52))%Z
    with (Z.pos (digits2_pos m) + e)%Z by lia.
  rewrite Hc.
  replace (e - (e + -52))%Z with 52%Z by lia.
  unfold shr. rewrite times_2_52.
  cbn [shr_record_of_loc iter_pos shr_1 orb].
  cbn [shr_m loc_of_shr_record round_nearest_even Zdigits2].
  replace (e + -52 + 52)%Z with e by lia.
  rewrite Hc, Z.sub_diag. cbn [shr_m shr_record_of_loc].
  now rewrite He.
Qed.

(** The box given to the section tool is the scene box with its lower z
    at -1 and nothing else changed: the multiplication of the upper z by
    1 leaves it as it is, for every double. *)
Theorem section_box_lowers_min_z_only (b : Box3) :
  valid_binary 53 1024 (vec_z (box_max b)) = true ->
  section_box b
  = {| box_min := {| vec_x := vec_x (box_min b); vec_y := vec_y (box_min b);
                     vec_z := number_minus_1 |};
       box_max := box_max b |}.
Proof.
  intros Hv. unfold section_box. rewrite (times_1 _ Hv).
  now destruct b as [bmin [x y z]].
Qed.

Lemma section_box_lowers_min_z_only_witness :
  section_box unit_box
  = {| box_min := {| vec_x := number_minus_1; vec_y := number_minus_1;
                     vec_z := number_minus_1 |};
       box_max := box_max unit_box |}.
Proof.
  apply (@section_box_lowers_min_z_only unit_box). reflexivity.
Defined.

(* ================================================================== *)
(** ** Who writes what *)

(** Each handler keeps to its own part of the state.  None writes the
    map or the scene box.  An element selection leaves the section tool,
    the opened windows and the measurements alone; a click in the scene
    touches nothing but the panel and [btnUrlDoc]; a click on the panel
    leaves the selection, the camera, the panel itself, [btnUrlDoc] and
    the console alone; a change of the measurement panel touches the
    measurements only. *)
Theorem handlers_keep_to_their_part (e : Event) (s : AppState) :
  let s' := snd (handle e s) in
  treeNodeMap s' = treeNodeMap s
  /\ sceneBox s' = sceneBox s
  /\ match e with
     | DropdownChange _ =>
         sections s' = sections s /\ sectionEnabled s' = sectionEnabled s
         /\ windows s' = windows s /\ measurements s' = measurements s
     | ObjectClicked _ => same_but_button s s'
     | Click _ =>
         selectedObjects s' = selectedObjects s /\ cameraViews s' = cameraViews s
         /\ pane s' = pane s /\ btnUrlDoc s' = btnUrlDoc s
         /\ console s' = console s /\ measurements s' = measurements s
     | MeasurementChange _ =>
         selectedObjects s' = selectedObjects s /\ cameraViews s' = cameraViews s
         /\ sections s' = sections s /\ sectionEnabled s' = sectionEnabled s
         /\ pane s' = pane s /\ btnUrlDoc s' = btnUrlDoc s
         /\ console s' = console s /\ windows s' = windows s
     end.
Proof.
  cbv zeta. destruct (handle_frame e s) as [Hm Hb].
  split; [exact Hm|]. split; [exact Hb|].
  destruct e as [value | ev | r | c]; simpl.
  - destruct (on_dropdown_change_cases value s)
      as [-> | [(elementId & tn & _ & _ & ->) | (_ & ->)]].
    + rewrite on_dropdown_change_all. repeat split.
    + rewrite ZoomOnTreeNode_steps.
      match goal with
      | |- context [createOrUpdateButton ?u ?s1] =>
          destruct (createOrUpdateButton_frame u s1)
            as (_ & _ & Hsec & _ & Hmeas & _ & Hflag & _ & Hwin)
      end.
      rewrite Hsec, Hmeas, Hflag, Hwin. repeat split.
    + repeat split.
  - destruct ev as [[[[|[n] others]|]]|]; try (repeat split; reflexivity).
    rewrite on_object_clicked_hit. apply createOrUpdateButton_frame.
  - unfold on_click, bind, read.
    destruct (pane_lookup (pane s) r) as [[bp [cb|]|]|]; try (repeat split; reflexivity).
    destruct (disabled bp); [repeat split; reflexivity|].
    destruct cb; repeat split; reflexivity.
  - repeat split.
Qed.
